(** * CoordinateDrawer (main.py): geographic coordinates drawn on a raster image

    A shallow embedding of the single class of the repository,
    [CoordinateDrawer], and the properties of its methods.

    - Python [float] is IEEE 754 binary64: the operations are the ones of
      [SpecFloat] at precision 53 and maximal exponent 1024, with the
      exceptions Python adds on top ([ZeroDivisionError] for a zero divisor,
      [ValueError]/[OverflowError] when [int] meets NaN or an infinity).
    - Python [str] is a sequence of Unicode code points.
    - [numpy] arrays are mutable and shared: they live in a heap, and the
      object's attributes hold their addresses.
    - The methods run in a state-and-exception monad over the heap and the
      images handed to the viewer. The object is an argument of its
      methods; the ones that assign attributes, all of them part of the
      construction, return it. *)

From Stdlib Require Import ZArith Lia List Bool Ascii String QArith Qround Qpower.
From Stdlib Require Import Floats.SpecFloat.
From stdpp Require Import base gmap strings list.

#[local] Open Scope Z_scope.

(* ------------------------------------------------------------------ *)
(** ** Exceptions *)

(** The messages that tell the [ValueError]s of the program apart. *)
Inductive value_error :=
| unreadable_image        (* raise ValueError(f"无法读取图像: ...") *)
| not_a_float             (* float(field): could not convert string to float *)
| need_four_corners       (* raise ValueError("需要正好4个角点坐标") *)
| nan_to_integer          (* int(nan): cannot convert float NaN to integer *)
| unpack_mismatch         (* a, b, c, d = xs  with len(xs) != 4 *)
| negative_dimensions     (* np.ones with a negative dimension *)
| cannot_broadcast.       (* slice assignment of an array of another shape *)

Inductive exn :=
| FileNotFoundError       (* raise FileNotFoundError("未找到配对的png图片和txt文件") *)
| ValueError (why : value_error)
| IndexError
| ZeroDivisionError
| OverflowError
| TypeError
| AttributeError
| OSError
| Cv2Error.

Inductive result (A : Type) :=
| Ok (a : A)
| Raise (e : exn).
Arguments Ok {A} a.
Arguments Raise {A} e.

#[global] Instance result_ret : MRet result := fun A a => Ok a.
#[global] Instance result_bind : MBind result := fun A B f r =>
  match r with
  | Ok a => f a
  | Raise e => Raise e
  end.

(** [xs[i]] on a Python list, for [0 <= i]. *)
Definition getitem {A} (xs : list A) (i : nat) : result A :=
  match xs !! i with
  | Some a => Ok a
  | None => Raise IndexError
  end.

(** [xs[-1]]. *)
Definition getitem_last {A} (xs : list A) : result A :=
  match xs with
  | [] => Raise IndexError
  | _ => getitem xs (length xs - 1)%nat
  end.

(** [a, b, c, d = xs]. *)
Definition unpack4 {A} (xs : list A) : result (A * A * A * A) :=
  match xs with
  | [a; b; c; d] => Ok (a, b, c, d)
  | _ => Raise (ValueError unpack_mismatch)
  end.

(** [list(map(f, xs))] for an [f] that may raise: the first failure wins. *)
Fixpoint map_result {A B} (f : A -> result B) (xs : list A) : result (list B) :=
  match xs with
  | [] => Ok []
  | x :: xs' => y ← f x; ys ← map_result f xs'; Ok (y :: ys)
  end.

(* ------------------------------------------------------------------ *)
(** ** Python floats: IEEE 754 binary64 *)

Definition prec : Z := 53.
Definition emax : Z := 1024.

Abbreviation float := spec_float.

Definition fsub : float -> float -> float := SFsub prec emax.
Definition fmul : float -> float -> float := SFmul prec emax.
Definition fdiv : float -> float -> float := SFdiv prec emax.
Definition feqb : float -> float -> bool := SFeqb.
Definition fltb : float -> float -> bool := SFltb.

(** A float of the machine: its mantissa has at most 53 bits and sits at
    the exponent the format prescribes. *)
Definition valid (x : float) : bool := valid_binary prec emax x.

Definition is_zero (x : float) : bool :=
  match x with
  | S754_zero _ => true
  | _ => false
  end.

Definition is_finite (x : float) : bool :=
  match x with
  | S754_zero _ | S754_finite _ _ _ => true
  | _ => false
  end.

(** The rational number a finite float stands for (0 for the others). *)
Definition float_value (x : float) : Q :=
  match x with
  | S754_finite s m e => inject_Z (cond_Zopp s (Zpos m)) * Qpower 2 e
  | _ => 0
  end.

(** Rounding a rational towards zero. *)
Definition Qtruncate (q : Q) : Z :=
  if Qle_bool 0 q then Qfloor q else Qceiling q.

(** [a - b] on floats never raises. *)
Definition py_sub (a b : float) : float := fsub a b.

(** [a * b] on floats never raises. *)
Definition py_mul (a b : float) : float := fmul a b.

(** [a / b] on floats: Python raises on a zero divisor (of either sign),
    whatever the dividend. *)
Definition py_truediv (a b : float) : result float :=
  if is_zero b then Raise ZeroDivisionError else Ok (fdiv a b).

(** [a != b] on floats. *)
Definition py_ne (a b : float) : bool := negb (feqb a b).

(** [min(a, b)]: the first argument unless the second is smaller. *)
Definition py_min (a b : float) : float := if fltb b a then b else a.

(** [int(x)] on a float: truncation towards zero. *)
Definition py_int (x : float) : result Z :=
  match x with
  | S754_zero _ => Ok 0
  | S754_finite s m e => Ok (cond_Zopp s (Z.shiftl (Zpos m) e))
  | S754_infinity _ => Raise OverflowError
  | S754_nan => Raise (ValueError nan_to_integer)
  end.

(** The conversion of a Python [int] operand of a float operation: the
    nearest float, [OverflowError] past the largest one. *)
Definition float_of_int (n : Z) : result float :=
  match binary_normalize prec emax n 0 false with
  | S754_infinity _ => Raise OverflowError
  | x => Ok x
  end.

(** An integer as an unrounded dividend or divisor. *)
Definition exact_int (n : Z) : float :=
  match n with
  | Z0 => S754_zero false
  | Zpos p => S754_finite false p 0
  | Zneg p => S754_finite true p 0
  end.

(** [a / b] on Python [int]s: the correctly rounded quotient. *)
Definition int_truediv (a b : Z) : result float :=
  if b =? 0 then Raise ZeroDivisionError
  else match fdiv (exact_int a) (exact_int b) with
       | S754_infinity _ => Raise OverflowError
       | x => Ok x
       end.

(** [n * x] with [n] an [int] and [x] a float. *)
Definition int_mul_float (n : Z) (x : float) : result float :=
  nf ← float_of_int n; Ok (py_mul nf x).

(** [x * n] with [x] a float and [n] an [int]. *)
Definition float_mul_int (x : float) (n : Z) : result float :=
  nf ← float_of_int n; Ok (py_mul x nf).

(** The float nearest to the decimal [m / 10^k]. *)
Definition decimal (m : Z) (k : nat) : float :=
  fdiv (exact_int m) (exact_int (10 ^ Z.of_nat k)).

(* ------------------------------------------------------------------ *)
(** ** Python strings: sequences of code points *)

Definition str := list N.

(** An ASCII literal of the source. *)
Definition lit (s : string) : str :=
  map (fun a => N_of_ascii a) (list_ascii_of_string s).

(** "经纬度坐标" *)
Definition marker : str := [0x7ECF; 0x7EAC; 0x5EA6; 0x5750; 0x6807]%N.
(** "：" (the full-width colon) *)
Definition colon : N := 0xFF1A%N.
(** "," *)
Definition comma : N := 0x2C%N.

Fixpoint startswith (s p : str) : bool :=
  match p, s with
  | [], _ => true
  | _ :: _, [] => false
  | c :: p', d :: s' => (c =? d)%N && startswith s' p'
  end.

Definition endswith (s p : str) : bool := startswith (rev s) (rev p).

(** [p in s] *)
Fixpoint contains (s p : str) : bool :=
  startswith s p ||
  match s with
  | [] => false
  | _ :: s' => contains s' p
  end.

(** [s.split(sep)] for a separator of one character. *)
Fixpoint split (sep : N) (s : str) : list str :=
  match s with
  | [] => [[]]
  | c :: s' =>
      if (c =? sep)%N then [] :: split sep s'
      else match split sep s' with
           | w :: ws => (c :: w) :: ws
           | [] => [[c]]
           end
  end.

(** [sep.join(pieces)] *)
Fixpoint join (sep : N) (pieces : list str) : str :=
  match pieces with
  | [] => []
  | [piece] => piece
  | piece :: rest => piece ++ sep :: join sep rest
  end.

(** The characters [str.strip()] removes. *)
Definition isspace (c : N) : bool :=
  ((0x09 <=? c) && (c <=? 0x0D) || (0x1C <=? c) && (c <=? 0x20)
   || (c =? 0x85) || (c =? 0xA0) || (c =? 0x1680)
   || (0x2000 <=? c) && (c <=? 0x200A)
   || (c =? 0x2028) || (c =? 0x2029) || (c =? 0x202F) || (c =? 0x205F)
   || (c =? 0x3000))%N.

Fixpoint lstrip (s : str) : str :=
  match s with
  | c :: s' => if isspace c then lstrip s' else s
  | [] => []
  end.

Definition strip (s : str) : str := rev (lstrip (rev (lstrip s))).

(** [bool(s)] for an attribute that is [None] or a string. *)
Definition truthy (s : option str) : bool :=
  match s with
  | Some (_ :: _) => true
  | _ => false
  end.

(** [posixpath.join(a, b)] *)
Definition os_path_join (a b : str) : str :=
  if startswith b (lit "/") then b
  else if match a with [] => true | _ => endswith a (lit "/") end then a ++ b
  else a ++ lit "/" ++ b.

(* ------------------------------------------------------------------ *)
(** ** numpy arrays, the heap and the monad of the methods *)

(** One pixel: three 8-bit channels (B, G, R unless converted). *)
Definition pixel : Type := Z * Z * Z.

(** An image array of shape [(shape0, shape1, 3)]: rows, columns, and the
    pixel at a row and a column. *)
Record ndarray := {
  shape0 : Z;
  shape1 : Z;
  px : Z -> Z -> pixel;
}.

Definition loc := nat.

(** What a run can change: the arrays, by address, and the images handed
    to the platform's viewer, latest first. *)
Record world := {
  heap : gmap loc ndarray;
  viewer : list ndarray;
}.

Definition M (A : Type) : Type := world -> result A * world.

#[global] Instance M_ret : MRet M := fun A a w => (Ok a, w).
#[global] Instance M_bind : MBind M := fun A B f m w =>
  match m w with
  | (Ok a, w') => f a w'
  | (Raise e, w') => (Raise e, w')
  end.

Definition raise {A} (e : exn) : M A := fun w => (Raise e, w).

Definition lift {A} (r : result A) : M A := fun w => (r, w).

(** A value that Python has or not: an attribute that may still hold
    [None] where an object is needed, a call into the system that may
    fail. *)
Definition attr {A} (a : option A) (e : exn) : M A :=
  match a with
  | Some x => mret x
  | None => raise e
  end.

(** A new array, at an address no array has. *)
Definition alloc (a : ndarray) : M loc := fun w =>
  let l := fresh (dom (heap w)) in
  (Ok l, {| heap := <[l := a]> (heap w); viewer := viewer w |}).

(** The array at an address. Every address a run holds is allocated; the
    other case is here to make the function total. *)
Definition load (l : loc) : M ndarray := fun w =>
  match heap w !! l with
  | Some a => (Ok a, w)
  | None => (Raise TypeError, w)
  end.

(** Overwriting the pixels of the array at an address, in place: the shape
    stays. *)
Definition store_px (l : loc) (p : Z -> Z -> pixel) : M unit := fun w =>
  match heap w !! l with
  | Some a =>
      (Ok tt, {| heap := <[l := {| shape0 := shape0 a; shape1 := shape1 a; px := p |}]> (heap w);
                 viewer := viewer w |})
  | None => (Raise TypeError, w)
  end.

(** [for x in xs: body] *)
Fixpoint for_each {A} (xs : list A) (body : A -> M unit) : M unit :=
  match xs with
  | [] => mret tt
  | x :: xs' => body x;; for_each xs' body
  end.

(** [a.copy()] *)
Definition ndarray_copy (l : loc) : M loc :=
  a ← load l; alloc a.

(** [np.ones((rows, cols, 3), dtype=np.uint8) * v] *)
Definition np_full (rows cols v : Z) : M loc :=
  if (rows <? 0) || (cols <? 0) then raise (ValueError negative_dimensions)
  else alloc {| shape0 := rows; shape1 := cols; px := fun _ _ => (v, v, v) |}.

(** The bounds [a:b] selects on an axis of length [n]: negative indices
    count from the end, and both ends are clipped. *)
Definition slice_bounds (n a b : Z) : Z * Z :=
  let norm i := if i <? 0 then Z.max (i + n) 0 else Z.min i n in
  (norm a, Z.max (norm a) (norm b)).

(** [dst[y0:y1, x0:x1] = src]: the source fills the selected region, an
    axis of length 1 being repeated; any other mismatch of shapes raises. *)
Definition setitem_slice (dst : loc) (y0 y1 x0 x1 : Z) (src : loc) : M unit :=
  d ← load dst;
  s ← load src;
  let '(ylo, yhi) := slice_bounds (shape0 d) y0 y1 in
  let '(xlo, xhi) := slice_bounds (shape1 d) x0 x1 in
  if ((shape0 s =? yhi - ylo) || (shape0 s =? 1))
     && ((shape1 s =? xhi - xlo) || (shape1 s =? 1))
  then store_px dst (fun r c =>
         if (ylo <=? r) && (r <? yhi) && (xlo <=? c) && (c <? xhi)
         then px s (if shape0 s =? 1 then 0 else r - ylo)
                   (if shape1 s =? 1 then 0 else c - xlo)
         else px d r c)
  else raise (ValueError cannot_broadcast).

(** [cv2.cvtColor(a, cv2.COLOR_BGR2RGB)]: a new array, the first and the
    third channel exchanged. *)
Definition cv2_cvtColor_BGR2RGB (l : loc) : M loc :=
  a ← load l;
  if (shape0 a <=? 0) || (shape1 a <=? 0) then raise Cv2Error
  else alloc {| shape0 := shape0 a; shape1 := shape1 a;
                px := fun r c => let '(b, g, r') := px a r c in (r', g, b) |}.

(** [Image.fromarray(a).show()] *)
Definition Image_show (l : loc) : M unit :=
  a ← load l;
  ((fun w => (Ok tt, {| heap := heap w; viewer := a :: viewer w |})) : M unit).

(* ------------------------------------------------------------------ *)
(** ** What the program takes from outside *)

(** The library functions whose results the program only passes on. *)
Record Library := {
  (** [os.path.normpath] *)
  os_path_normpath : str -> str;
  (** [float(s)] on a string; [None] where Python raises [ValueError] *)
  py_float : str -> option float;
  (** the pixels [cv2.circle(img, center, radius, color, thickness)] leaves *)
  cv2_circle : ndarray -> Z * Z -> Z -> pixel -> Z -> (Z -> Z -> pixel);
  (** the pixels of [cv2.resize(img, (w, h), interpolation=cv2.INTER_AREA)] *)
  cv2_resize : ndarray -> Z -> Z -> (Z -> Z -> pixel);
}.

(** The files the program reads. A failure of the operating system
    ([None]) is an [OSError], whatever its subclass: it is told apart from
    the [FileNotFoundError] the program raises itself. *)
Record filesystem := {
  (** [os.listdir(path)], in the order the system lists the names *)
  os_listdir : str -> option (list str);
  (** [cv2.imread(path)]; [None] when the file cannot be decoded *)
  cv2_imread : str -> option ndarray;
  (** the lines of [open(path, "r", encoding="utf-8")], as iteration
      yields them *)
  open_lines : str -> option (list str);
}.

(* ------------------------------------------------------------------ *)
(** ** class CoordinateDrawer *)

Record CoordinateDrawer := {
  folder_path : str;
  display_size : Z * Z;
  image_path : option str;
  txt_path : option str;
  corner_points : option (list (list float));
  original_image : option loc;
  lon_range : option (float * float);
  lat_range : option (float * float);
}.

Definition set_image_path (v : option str) (o : CoordinateDrawer) :=
  {| folder_path := folder_path o; display_size := display_size o;
     image_path := v; txt_path := txt_path o;
     corner_points := corner_points o; original_image := original_image o;
     lon_range := lon_range o; lat_range := lat_range o |}.

Definition set_txt_path (v : option str) (o : CoordinateDrawer) :=
  {| folder_path := folder_path o; display_size := display_size o;
     image_path := image_path o; txt_path := v;
     corner_points := corner_points o; original_image := original_image o;
     lon_range := lon_range o; lat_range := lat_range o |}.

Definition set_corner_points (v : option (list (list float))) (o : CoordinateDrawer) :=
  {| folder_path := folder_path o; display_size := display_size o;
     image_path := image_path o; txt_path := txt_path o;
     corner_points := v; original_image := original_image o;
     lon_range := lon_range o; lat_range := lat_range o |}.

Definition set_original_image (v : option loc) (o : CoordinateDrawer) :=
  {| folder_path := folder_path o; display_size := display_size o;
     image_path := image_path o; txt_path := txt_path o;
     corner_points := corner_points o; original_image := v;
     lon_range := lon_range o; lat_range := lat_range o |}.

Definition set_lon_range (v : option (float * float)) (o : CoordinateDrawer) :=
  {| folder_path := folder_path o; display_size := display_size o;
     image_path := image_path o; txt_path := txt_path o;
     corner_points := corner_points o; original_image := original_image o;
     lon_range := v; lat_range := lat_range o |}.

Definition set_lat_range (v : option (float * float)) (o : CoordinateDrawer) :=
  {| folder_path := folder_path o; display_size := display_size o;
     image_path := image_path o; txt_path := txt_path o;
     corner_points := corner_points o; original_image := original_image o;
     lon_range := lon_range o; lat_range := v |}.

(** One axis of [_convert_to_pixel]:
    [int((v - lo) / (hi - lo) * extent)]. *)
Definition to_pixel_axis (v lo hi : float) (extent : Z) : result Z :=
  q ← py_truediv (py_sub v lo) (py_sub hi lo);
  p ← float_mul_int q extent;
  py_int p.

Section Methods.

Context (lib : Library) (fs : filesystem).

(** The body of the loop of [_initialize]: the last [.png] and the last
    [.txt] of the listing are kept. *)
Definition scan_file (self : CoordinateDrawer) (file : str) : CoordinateDrawer :=
  if endswith file (lit ".png")
  then set_image_path (Some (os_path_join (folder_path self) file)) self
  else if endswith file (lit ".txt")
  then set_txt_path (Some (os_path_join (folder_path self) file)) self
  else self.

(** [list(map(float, coords))] for the fields of one matching line. *)
Definition parse_field (field : str) : result float :=
  match py_float lib field with
  | Some x => Ok x
  | None => Raise (ValueError not_a_float)
  end.

Definition parse_line (line : str) : result (list float) :=
  tail ← getitem_last (split colon line);
  map_result parse_field (split comma (strip tail)).

(** The loop of [_read_corner_points] over the lines of the file. *)
Fixpoint read_points (lines : list str) (points : list (list float))
  : result (list (list float)) :=
  match lines with
  | [] => Ok points
  | line :: rest =>
      if contains line marker
      then p ← parse_line line; read_points rest (points ++ [p])
      else read_points rest points
  end.

Definition _read_corner_points (self : CoordinateDrawer) : M (list (list float)) :=
  path ← attr (txt_path self) TypeError;
  lines ← attr (open_lines fs path) OSError;
  points ← lift (read_points lines []);
  if bool_decide (length points ≠ 4%nat)
  then raise (ValueError need_four_corners)
  else mret points.

Definition _set_coordinate_range (self : CoordinateDrawer) : M CoordinateDrawer :=
  cp ← attr (corner_points self) TypeError;
  '(left_bottom, left_top, right_top, right_bottom) ← lift (unpack4 cp);
  lon0 ← lift (getitem left_top 0);
  lon1 ← lift (getitem right_bottom 0);
  let self := set_lon_range (Some (lon0, lon1)) self in
  lat0 ← lift (getitem left_bottom 1);
  lat1 ← lift (getitem left_top 1);
  mret (set_lat_range (Some (lat0, lat1)) self).

Definition _initialize (self : CoordinateDrawer) : M CoordinateDrawer :=
  files ← attr (os_listdir fs (folder_path self)) OSError;
  let self := fold_left scan_file files self in
  if negb (truthy (image_path self) && truthy (txt_path self))
  then raise FileNotFoundError
  else
    path ← attr (image_path self) TypeError;
    match cv2_imread fs path with
    | None => raise (ValueError unreadable_image)
    | Some a =>
        l ← alloc a;
        let self := set_original_image (Some l) self in
        points ← _read_corner_points self;
        let self := set_corner_points (Some points) self in
        _set_coordinate_range self
    end.

(** [CoordinateDrawer(folder_path, display_size)]: the object, or the
    exception that ends the construction. *)
Definition __init__ (folder : str) (size : Z * Z) : M CoordinateDrawer :=
  _initialize
    {| folder_path := os_path_normpath lib folder; display_size := size;
       image_path := None; txt_path := None; corner_points := None;
       original_image := None; lon_range := None; lat_range := None |}.

Definition _convert_to_pixel (self : CoordinateDrawer) (lon lat : float) : M (Z * Z) :=
  orig ← attr (original_image self) AttributeError;
  img ← load orig;
  let height := shape0 img in
  let width := shape1 img in
  cp ← attr (corner_points self) TypeError;
  '(left_bottom, left_top, right_top, right_bottom) ← lift (unpack4 cp);
  lift (
    lt0 ← getitem left_top 0;
    rb0 ← getitem right_bottom 0;
    x ← to_pixel_axis lon lt0 rb0 width;
    lt1 ← getitem left_top 1;
    rb1 ← getitem right_bottom 1;
    y ← to_pixel_axis lat lt1 rb1 height;
    Ok (x, y)).

(** [cv2.resize(image, (w, h), interpolation=cv2.INTER_AREA)]: OpenCV
    refuses an empty source and an empty target. *)
Definition resize (image : loc) (w h : Z) : M loc :=
  img ← load image;
  if (0 <? w) && (0 <? h) && (0 <? shape0 img) && (0 <? shape1 img)
  then alloc {| shape0 := h; shape1 := w; px := cv2_resize lib img w h |}
  else raise Cv2Error.

(** [cv2.circle(image, center, radius, color, thickness)], in place:
    OpenCV refuses a negative radius and one that is no C [int]. *)
Definition circle (image : loc) (center : Z * Z) (radius : Z) (color : pixel)
  (thickness : Z) : M unit :=
  img ← load image;
  if (0 <=? radius) && (radius <? 2 ^ 31)
  then store_px image (cv2_circle lib img center radius color thickness)
  else raise Cv2Error.

Definition _resize_with_padding (self : CoordinateDrawer) (image : loc) : M loc :=
  let '(target_width, target_height) := display_size self in
  img ← load image;
  let img_height := shape0 img in
  let img_width := shape1 img in
  sx ← lift (int_truediv target_width img_width);
  sy ← lift (int_truediv target_height img_height);
  let scale := py_min sx sy in
  new_width ← lift (v ← int_mul_float img_width scale; py_int v);
  new_height ← lift (v ← int_mul_float img_height scale; py_int v);
  display_img ← np_full target_height target_width 128;
  resized_img ← resize image new_width new_height;
  let x_offset := (target_width - new_width) `div` 2 in
  let y_offset := (target_height - new_height) `div` 2 in
  setitem_slice display_img y_offset (y_offset + new_height)
                x_offset (x_offset + new_width) resized_img;;
  mret display_img.

(** The body of the loop of [draw]: one coordinate, marked on the copy
    when its position is inside the image. *)
Definition draw_point (self : CoordinateDrawer) (result_image : loc)
  (color : pixel) (size : Z) (coordinate : float * float) : M unit :=
  let '(lon, lat) := coordinate in
  '(x, y) ← _convert_to_pixel self lon lat;
  img ← load result_image;
  if (0 <=? x) && (x <? shape1 img) && (0 <=? y) && (y <? shape0 img)
  then circle result_image (x, y) size color (-1)
  else mret tt.

Definition draw (self : CoordinateDrawer) (coordinates : list (float * float))
  (color : pixel) (size : Z) (show : bool) : M loc :=
  orig ← attr (original_image self) AttributeError;
  result_image ← ndarray_copy orig;
  for_each coordinates (draw_point self result_image color size);;
  (if show
   then display_img ← _resize_with_padding self result_image;
        rgb_display ← cv2_cvtColor_BGR2RGB display_img;
        Image_show rgb_display
   else mret tt);;
  mret result_image.

Definition get_coordinate_range (self : CoordinateDrawer)
  : gmap string (option (float * float)) :=
  {[ "longitude"%string := lon_range self; "latitude"%string := lat_range self ]}.

End Methods.

(* ------------------------------------------------------------------ *)
(** ** Vocabulary of the statements *)

(** The float the formula of one axis denotes before [int] is applied:
    [(v - lo) / (hi - lo) * extent]. *)
Definition scaled_position (v lo hi : float) (extent : Z) : float :=
  fmul (fdiv (fsub v lo) (fsub hi lo)) (binary_normalize prec emax extent 0 false).

(** 1.0 *)
Definition one : float := S754_finite false 4503599627370496 (-52).

(** The lines of a calibration file that hold the marker, and the fields
    of such a line: what follows the last full-width colon, stripped and
    cut at the commas. *)
Definition matching (lines : list str) : list str :=
  filter (fun line => contains line marker = true) lines.

Definition fields (line : str) : list str :=
  split comma (strip (List.last (split colon line) [])).

(** The path the scan of the directory keeps for an extension: the last
    name of the listing that ends with it, joined to the folder. *)
Definition chosen (suffix folder : str) (files : list str) : option str :=
  os_path_join folder <$> last (filter (fun f => endswith f suffix = true) files).

(** The error kinds of the specification. *)
Definition MissingInputFile (e : exn) : Prop := e = FileNotFoundError.

Definition InvalidCalibration (e : exn) : Prop :=
  e = ValueError not_a_float \/ e = ValueError need_four_corners.

(** A computation keeps an array at [l], and a property [P] of it, and what
    it returns satisfies [Q]. With [P] the equality to one array, the
    array at [l] is left as it is. *)
Definition keeps {A} (l : loc) (P : ndarray -> Prop) (m : M A) (Q : A -> Prop)
  : Prop :=
  forall w a, heap w !! l = Some a -> P a ->
    (exists a', heap (m w).2 !! l = Some a' /\ P a')
    /\ forall x, (m w).1 = Ok x -> Q x.

(** The test [draw] makes before it marks a position. *)
Definition in_bounds (img : ndarray) (p : Z * Z) : bool :=
  (0 <=? p.1) && (p.1 <? shape1 img) && (0 <=? p.2) && (p.2 <? shape0 img).

Definition with_px (img : ndarray) (p : Z -> Z -> pixel) : ndarray :=
  {| shape0 := shape0 img; shape1 := shape1 img; px := p |}.

(** An image after filled circles at the given positions, in order. *)
Definition marked (lib : Library) (size : Z) (color : pixel)
  (positions : list (Z * Z)) (img : ndarray) : ndarray :=
  fold_left (fun a p => with_px a (cv2_circle lib a p size color (-1))) positions img.



(** Writing pixels at [x] is harmless for a property [P] of the array at
    [l]: it is another array, or [P] speaks of the shape only. *)
Definition harmless (l : loc) (P : ndarray -> Prop) (x : loc) : Prop :=
  x <> l \/ forall a p, P a -> P (with_px a p).


(** How many names of a listing end with a suffix. *)
Definition count_ending (suffix : str) (files : list str) : nat :=
  length (filter (fun f => endswith f suffix = true) files).

(** The object the constructor returns. *)
Definition constructed (folder : str) (size : Z * Z) (ipath tpath : str)
  (points : list (list float)) (l : loc) (lon lat : float * float) : CoordinateDrawer :=
  {| folder_path := folder; display_size := size;
     image_path := Some ipath; txt_path := Some tpath;
     corner_points := Some points; original_image := Some l;
     lon_range := Some lon; lat_range := Some lat |}.

(** The world after the constructor has read the image. *)
Definition loaded (w : world) (img : ndarray) : world :=
  {| heap := <[fresh (dom (heap w)) := img]> (heap w); viewer := viewer w |}.

(* ------------------------------------------------------------------ *)
(** ** A directory, a library and inputs to run the program on *)

(** The value of a string of ASCII digits. *)
Fixpoint digits_value (s : str) (acc : Z) : option Z :=
  match s with
  | [] => Some acc
  | c :: s' =>
      if ((48 <=? c) && (c <=? 57))%N
      then digits_value s' (10 * acc + Z.of_N (c - 48))
      else None
  end.

(** [float(s)] on the plain decimals ([12], [-1.5], [117.60]) the files
    below hold; Python reads more forms than these. *)
Definition plain_decimal (s : str) : option float :=
  let '(neg, body) :=
    match s with
    | 45%N :: r => (true, r)
    | _ => (false, s)
    end in
  let sign x := if neg : bool then SFopp x else x in
  match split 46%N body with
  | [i] =>
      match i with
      | [] => None
      | _ => n ← digits_value i 0; Some (sign (decimal n 0))
      end
  | [i; f] =>
      match i ++ f with
      | [] => None
      | _ => n ← digits_value (i ++ f) 0; Some (sign (decimal n (length f)))
      end
  | _ => None
  end.

(** A filled disc around [(x, y)]: column [x], row [y]. *)
Definition disc (img : ndarray) (center : Z * Z) (radius : Z) (color : pixel)
  (thickness : Z) : Z -> Z -> pixel :=
  fun row col =>
    if (col - center.1) * (col - center.1) + (row - center.2) * (row - center.2)
         <=? radius * radius
    then color else px img row col.

(** Resampling by the nearest source pixel. *)
Definition nearest (img : ndarray) (w h : Z) : Z -> Z -> pixel :=
  fun row col => px img (row * shape0 img `div` h) (col * shape1 img `div` w).

Definition example_lib : Library := {|
  os_path_normpath := fun p => p;
  py_float := plain_decimal;
  cv2_circle := disc;
  cv2_resize := nearest;
|}.

Definition blank (rows cols : Z) : ndarray :=
  {| shape0 := rows; shape1 := cols; px := fun _ _ => (0, 0, 0) |}.

(** One line of a calibration file: a label, the marker, the full-width
    colon, the value and the end of the line. *)
Definition corner_line (label value : string) : str :=
  lit label ++ marker ++ [colon] ++ lit value ++ [10%N].

Definition example_lines : list str := [
  lit "map.png" ++ [10%N];
  corner_line "LB " "117.60,35.99";
  corner_line "LT " "117.60,36.01";
  corner_line "RT " "117.65,36.01";
  corner_line "RB " "117.65,35.99"
].

(** A directory with the given names, one image behind every [.png] and
    the same lines behind every [.txt]. *)
Definition directory (names : list str) (img : ndarray) (lines : list str)
  : filesystem := {|
  os_listdir := fun _ => Some names;
  cv2_imread := fun p => if endswith p (lit ".png") then Some img else None;
  open_lines := fun p => if endswith p (lit ".txt") then Some lines else None;
|}.

Definition example_fs : filesystem :=
  directory [lit "map.png"; lit "map.txt"] (blank 3000 4000) example_lines.

Definition empty_world : world := {| heap := ∅; viewer := [] |}.

Definition example_corners : list (list float) := [
  [decimal 11760 2; decimal 3599 2];
  [decimal 11760 2; decimal 3601 2];
  [decimal 11765 2; decimal 3601 2];
  [decimal 11765 2; decimal 3599 2]
].

(** The object the constructor builds from [example_fs]. *)
Definition example_self : CoordinateDrawer := {|
  folder_path := lit "map";
  display_size := (1920, 1080);
  image_path := Some (lit "map/map.png");
  txt_path := Some (lit "map/map.txt");
  corner_points := Some example_corners;
  original_image := Some 0%nat;
  lon_range := Some (decimal 11760 2, decimal 11765 2);
  lat_range := Some (decimal 3599 2, decimal 3601 2);
|}.

Definition example_world : world :=
  {| heap := {[ 0%nat := blank 3000 4000 ]}; viewer := [] |}.

(** Two coordinates: one inside the image of the example, one to its left. *)
Definition example_coordinates : list (float * float) :=
  [(decimal 117625 3, decimal 3600 2); (decimal 11759 2, decimal 3600 2)].


(** A directory with two images. *)
Definition two_png_fs : filesystem :=
  directory [lit "a.png"; lit "b.png"; lit "map.txt"] (blank 3000 4000) example_lines.

(** A directory with no image. *)
Definition no_png_fs : filesystem :=
  directory [lit "map.txt"; lit "notes.md"] (blank 3000 4000) example_lines.

(** A calibration file with fields after the latitude. *)
Definition extra_lines : list str := [
  corner_line "LB " "117.60,35.99,52.5";
  corner_line "LT " "117.60,36.01,53";
  corner_line "RT " "117.65,36.01,51.25,7";
  corner_line "RB " "117.65,35.99,50"
].

Definition extra_fs : filesystem :=
  directory [lit "map.png"; lit "map.txt"] (blank 3000 4000) extra_lines.

(** A calibration file whose corners share one longitude. *)
Definition degenerate_lines : list str := [
  corner_line "LB " "117.60,35.99";
  corner_line "LT " "117.60,36.01";
  corner_line "RT " "117.60,36.01";
  corner_line "RB " "117.60,35.99"
].

Definition degenerate_fs : filesystem :=
  directory [lit "map.png"; lit "map.txt"] (blank 3000 4000) degenerate_lines.

(* ------------------------------------------------------------------ *)
(** * Properties *)

(** ** Arithmetic of binary64 *)

Lemma pow2_pred (d : Z) : 0 < d -> 2 ^ d = 2 * 2 ^ (d - 1).
Proof. intros. rewrite <- Z.pow_succ_r by lia. f_equal. lia. Qed.

Lemma digits2_pos_bounds (p : positive) :
  2 ^ (Zpos (digits2_pos p) - 1) <= Zpos p < 2 ^ Zpos (digits2_pos p).
Proof.
  induction p as [p IH | p IH |]; cbn [digits2_pos].
  - rewrite Pos2Z.inj_succ.
    replace (Z.succ (Zpos (digits2_pos p)) - 1) with (Zpos (digits2_pos p)) by lia.
    rewrite Z.pow_succ_r by lia.
    pose proof (pow2_pred (Zpos (digits2_pos p))). lia.
  - rewrite Pos2Z.inj_succ.
    replace (Z.succ (Zpos (digits2_pos p)) - 1) with (Zpos (digits2_pos p)) by lia.
    rewrite Z.pow_succ_r by lia.
    pose proof (pow2_pred (Zpos (digits2_pos p))). lia.
  - cbn. lia.
Qed.

Lemma shr_1_m (mrs : shr_record) :
  0 <= shr_m mrs -> shr_m (shr_1 mrs) = shr_m mrs / 2.
Proof.
  destruct mrs as [m r s]. cbn [shr_m]. intros Hm.
  rewrite <- Z.div2_div.
  destruct m as [|[p|p|]|p]; try reflexivity. lia.
Qed.

Lemma pow2_xO (p : positive) : 2 ^ Zpos p~0 = 2 ^ Zpos p * 2 ^ Zpos p.
Proof. rewrite <- Z.pow_add_r by lia. f_equal. lia. Qed.

Lemma pow2_xI (p : positive) : 2 ^ Zpos p~1 = 2 * (2 ^ Zpos p * 2 ^ Zpos p).
Proof.
  rewrite <- Z.pow_add_r, <- Z.pow_succ_r by lia. f_equal. lia.
Qed.

Lemma iter_pos_shr_1_m (p : positive) (mrs : shr_record) :
  0 <= shr_m mrs ->
  shr_m (SpecFloat.iter_pos shr_1 p mrs) = shr_m mrs / 2 ^ Zpos p.
Proof.
  revert mrs. induction p as [p IH | p IH |]; intros mrs Hm; cbn [SpecFloat.iter_pos].
  - assert (0 <= shr_m (shr_1 mrs)) as H1.
    { rewrite shr_1_m by done. apply Z.div_pos; lia. }
    assert (0 <= shr_m (SpecFloat.iter_pos shr_1 p (shr_1 mrs))) as H2.
    { rewrite IH by done. apply Z.div_pos; lia. }
    rewrite IH, IH, shr_1_m by done.
    rewrite !Z.div_div by lia. f_equal. rewrite pow2_xI. lia.
  - assert (0 <= shr_m (SpecFloat.iter_pos shr_1 p mrs)) as H2.
    { rewrite IH by done. apply Z.div_pos; lia. }
    rewrite IH, IH by done.
    rewrite !Z.div_div by lia. f_equal. rewrite pow2_xO. lia.
  - rewrite shr_1_m by done. reflexivity.
Qed.

(** Exponents of the format, spelled out. *)
Lemma fexp_eq (e : Z) : fexp prec emax e = Z.max (e - 53) (-1074).
Proof. reflexivity. Qed.

(** Shifting right by the amount the format asks for keeps a positive
    mantissa positive, as long as the exponent is in range. *)
Lemma shr_fexp_pos (m e : Z) (l : location) :
  0 < m -> -1074 <= e ->
  0 < shr_m (fst (shr_fexp prec emax m e l)) /\ -1074 <= snd (shr_fexp prec emax m e l).
Proof.
  intros Hm He. unfold shr_fexp, shr. rewrite fexp_eq.
  destruct m as [|p|p]; try lia. cbn [Zdigits2].
  pose proof (digits2_pos_bounds p) as [Hlo Hhi].
  set (d := Zpos (digits2_pos p)) in *.
  assert (shr_m (shr_record_of_loc (Zpos p) l) = Zpos p) as Hrec.
  { destruct l as [|[]]; reflexivity. }
  destruct (Z.max (d + e - 53) (-1074) - e) as [|n|n] eqn:En; cbn [fst snd];
    rewrite ?Hrec; try (split; lia).
  rewrite iter_pos_shr_1_m by (rewrite Hrec; lia). rewrite Hrec.
  assert (Zpos n = d - 53) as -> by lia.
  split; [|lia].
  apply Z.div_str_pos. split; [apply Z.pow_pos_nonneg; lia|].
  etransitivity; [|exact Hlo]. apply Z.pow_le_mono_r; lia.
Qed.

Lemma round_nearest_even_ge (m : Z) (l : location) : m <= round_nearest_even m l.
Proof. destruct l as [|[]]; cbn; try lia. destruct (Z.even m); lia. Qed.

(** Rounding a positive mantissa at an exponent in range gives a nonzero
    finite float or an infinity: neither a zero nor a NaN. *)
Lemma binary_round_aux_pos (s : bool) (m e : Z) (l : location) :
  0 < m -> -1074 <= e ->
  match binary_round_aux prec emax s m e l with
  | S754_finite _ _ _ | S754_infinity _ => True
  | _ => False
  end.
Proof.
  intros Hm He. unfold binary_round_aux.
  pose proof (shr_fexp_pos m e l Hm He) as [H1 H2].
  destruct (shr_fexp prec emax m e l) as [mrs' e']. cbn [fst snd] in *.
  pose proof (round_nearest_even_ge (shr_m mrs') (loc_of_shr_record mrs')) as Hr.
  pose proof (shr_fexp_pos (round_nearest_even (shr_m mrs') (loc_of_shr_record mrs')) e' loc_Exact
                ltac:(lia) H2) as [H3 _].
  destruct (shr_fexp prec emax _ e' loc_Exact) as [mrs'' e'']. cbn [fst] in H3.
  destruct (shr_m mrs''); try lia.
  destruct (Z.leb e'' _); exact I.
Qed.

Lemma pos_iter_xO (m d : positive) : Zpos (Pos.iter xO m d) = Zpos m * 2 ^ Zpos d.
Proof.
  induction d as [|d IH] using Pos.peano_ind.
  - cbn. lia.
  - rewrite Pos.iter_succ, Pos2Z.inj_xO, IH, Pos2Z.inj_succ, Z.pow_succ_r by lia. lia.
Qed.

Lemma digits2_pos_iter_xO (m d : positive) :
  Zpos (digits2_pos (Pos.iter xO m d)) = Zpos (digits2_pos m) + Zpos d.
Proof.
  induction d as [|d IH] using Pos.peano_ind.
  - cbn. lia.
  - rewrite Pos.iter_succ. cbn [digits2_pos]. rewrite Pos2Z.inj_succ, IH. lia.
Qed.

Lemma shl_align_spec (m : positive) (e e' : Z) :
  e' <= e ->
  Zpos (fst (shl_align m e e')) = Zpos m * 2 ^ (e - e')
  /\ Zpos (digits2_pos (fst (shl_align m e e'))) = Zpos (digits2_pos m) + (e - e')
  /\ snd (shl_align m e e') = e'.
Proof.
  intros He. unfold shl_align.
  destruct (e' - e) as [|d|d] eqn:Ed; cbn [fst snd]; try lia.
  - replace (e - e') with 0 by lia. cbn. lia.
  - rewrite pos_iter_xO, digits2_pos_iter_xO.
    replace (e - e') with (Zpos d) by lia. lia.
Qed.

Lemma valid_finite (s : bool) (m : positive) (e : Z) :
  valid (S754_finite s m e) = true ->
  e = Z.max (Zpos (digits2_pos m) + e - 53) (-1074) /\ e <= 971.
Proof.
  unfold valid, valid_binary, bounded, canonical_mantissa. rewrite fexp_eq.
  intros [H1 H2]%andb_true_iff. apply Z.eqb_eq in H1. apply Z.leb_le in H2.
  change (emax - prec) with 971 in H2. lia.
Qed.

Lemma binary_normalize_nonzero (m e : Z) (sz : bool) :
  m <> 0 -> -1074 <= e ->
  match binary_normalize prec emax m e sz with
  | S754_finite _ _ _ | S754_infinity _ => True
  | _ => False
  end.
Proof.
  intros Hm He.
  assert (forall s p, match binary_round prec emax s p e with
                      | S754_finite _ _ _ | S754_infinity _ => True
                      | _ => False
                      end) as Hround.
  { intros s p. unfold binary_round. rewrite fexp_eq.
    set (e' := Z.max _ _).
    destruct (Z.le_gt_cases e' e) as [Hle|Hgt].
    - pose proof (shl_align_spec p e e' Hle) as (_ & _ & H3).
      destruct (shl_align p e e') as [mz ez]. cbn [snd] in H3. subst ez.
      apply binary_round_aux_pos; lia.
    - unfold shl_align. destruct (e' - e) eqn:Ed; try lia.
      apply binary_round_aux_pos; lia. }
  destruct m; [lia | apply Hround | apply Hround].
Qed.

(** Two distinct floats of the machine have a difference that is neither a
    zero nor a NaN. *)
Lemma fsub_ne (a b : float) :
  valid a = true -> valid b = true ->
  is_finite a = true -> is_finite b = true ->
  feqb a b = false ->
  match fsub a b with
  | S754_finite _ _ _ | S754_infinity _ => True
  | _ => False
  end.
Proof.
  intros Va Vb Fa Fb Hne.
  destruct a as [sa|sa| |sa ma ea], b as [sb|sb| |sb mb eb]; try discriminate; try exact I.
  apply valid_finite in Va as [Ca _], Vb as [Cb _].
  unfold fsub, SFsub.
  apply binary_normalize_nonzero; [|lia].
  intros HM.
  assert (sa = sb) as ->.
  { destruct sa, sb; cbn [cond_Zopp] in HM; try reflexivity; lia. }
  assert (Zpos (fst (shl_align ma ea (Z.min ea eb))) = Zpos (fst (shl_align mb eb (Z.min ea eb)))) as E.
  { destruct sb; cbn [cond_Zopp] in HM; lia. }
  clear HM.
  pose proof (shl_align_spec ma ea (Z.min ea eb) ltac:(lia)) as (A1 & A2 & _).
  pose proof (shl_align_spec mb eb (Z.min ea eb) ltac:(lia)) as (B1 & B2 & _).
  assert (Zpos (digits2_pos ma) + ea = Zpos (digits2_pos mb) + eb) as Hd.
  { injection E as E'. rewrite E' in A2. lia. }
  assert (ea = eb) as -> by lia.
  rewrite Z.min_id in A1, B1, E. rewrite Z.sub_diag in A1, B1.
  change (2 ^ 0) with 1 in A1, B1.
  assert (ma = mb) as -> by lia.
  unfold feqb, SFeqb, SFcompare in Hne.
  rewrite Z.compare_refl in Hne.
  destruct sb; cbn in Hne; rewrite Pos.compare_cont_refl in Hne; discriminate.
Qed.

Lemma fsub_diag (a : float) : is_finite a = true -> fsub a a = S754_zero false.
Proof.
  destruct a as [[]|?| |s m e]; try discriminate; try reflexivity.
  intros _. unfold fsub, SFsub. rewrite Z.sub_diag. reflexivity.
Qed.

Lemma fdiv_diag (s : bool) (m : positive) (e : Z) :
  fdiv (S754_finite s m e) (S754_finite s m e) = one.
Proof.
  unfold fdiv, SFdiv, SFdiv_core_binary.
  rewrite xorb_nilpotent, !Z.sub_diag.
  change (Z.min (fexp prec emax 0) 0) with (-53).
  change (0 - -53) with 53.
  cbv iota.
  assert (Z.div_eucl (Z.shiftl (Zpos m) 53) (Zpos m) = (2 ^ 53, 0)) as ->.
  { rewrite (surjective_pairing (Z.div_eucl _ _)).
    change (fst (Z.div_eucl ?a ?b)) with (a / b).
    change (snd (Z.div_eucl ?a ?b)) with (a mod b).
    rewrite Z.shiftl_mul_pow2, Z.mul_comm by lia.
    rewrite Z.div_mul, Z.mod_mul by lia. reflexivity. }
  assert (new_location (Zpos m) 0 = loc_Exact) as ->.
  { unfold new_location. destruct (Z.even _); reflexivity. }
  reflexivity.
Qed.

Lemma binary_round_aux_canonical (s : bool) (m : positive) (e : Z) :
  valid (S754_finite s m e) = true ->
  binary_round_aux prec emax s (Zpos m) e loc_Exact = S754_finite s m e.
Proof.
  intros [H1 H2]%andb_true_iff.
  unfold canonical_mantissa in H1. apply Z.eqb_eq in H1.
  unfold binary_round_aux, shr_fexp. cbn [Zdigits2 shr_record_of_loc].
  rewrite H1, Z.sub_diag. cbn [shr shr_m loc_of_shr_record round_nearest_even Zdigits2].
  rewrite H1, Z.sub_diag. cbn [shr shr_m].
  rewrite H2. reflexivity.
Qed.

(** A natural number below [2^53] is a float, and converting it back
    gives the number. *)
Lemma float_of_int_exact (n : Z) :
  0 <= n < 2 ^ 53 ->
  exists x, float_of_int n = Ok x /\ is_finite x = true /\ valid x = true
            /\ py_int x = Ok n.
Proof.
  intros Hn. unfold float_of_int, binary_normalize.
  destruct n as [|p|p]; try lia.
  { eexists; repeat split. }
  unfold binary_round. rewrite fexp_eq.
  pose proof (digits2_pos_bounds p) as [Hlo Hhi].
  set (d := Zpos (digits2_pos p)) in *.
  assert (d <= 53) as Hd.
  { destruct (Z.le_gt_cases d 53) as [|Hgt]; [done|].
    assert (2 ^ 53 <= 2 ^ (d - 1)) by (apply Z.pow_le_mono_r; lia). lia. }
  replace (Z.max (d + 0 - 53) (-1074)) with (d - 53) by lia.
  pose proof (shl_align_spec p 0 (d - 53) ltac:(lia)) as (A1 & A2 & A3).
  destruct (shl_align p 0 (d - 53)) as [mz ez]. cbn [fst snd] in *. subst ez.
  fold d in A2.
  assert (valid (S754_finite false mz (d - 53)) = true) as V.
  { unfold valid, valid_binary, bounded, canonical_mantissa.
    rewrite fexp_eq, A2. apply andb_true_iff. split.
    - apply Z.eqb_eq. lia.
    - apply Z.leb_le. change (emax - prec) with 971. lia. }
  rewrite binary_round_aux_canonical by exact V.
  eexists; repeat split; [exact V|].
  cbn [py_int cond_Zopp]. f_equal.
  rewrite A1. replace (d - 53) with (- (0 - (d - 53))) at 2 by lia.
  rewrite Z.shiftl_opp_r, Z.shiftr_div_pow2 by lia.
  apply Z.div_mul. apply Z.pow_nonzero; lia.
Qed.

Lemma fmul_one_l (s : bool) (m : positive) (e : Z) :
  valid (S754_finite s m e) = true ->
  fmul one (S754_finite s m e) = S754_finite s m e.
Proof.
  intros V. pose proof V as [H1 H2]%andb_true_iff.
  unfold canonical_mantissa in H1. apply Z.eqb_eq in H1. rewrite fexp_eq in H1.
  unfold fmul, one, SFmul. cbn [xorb].
  unfold binary_round_aux, shr_fexp. rewrite fexp_eq.
  cbn [Zdigits2 shr_record_of_loc].
  change (4503599627370496 * m)%positive with (Pos.iter xO m 52).
  rewrite digits2_pos_iter_xO.
  replace (Z.max (Zpos (digits2_pos m) + 52 + (-52 + e) - 53) (-1074) - (-52 + e)) with 52 by lia.
  replace (shr {| shr_m := Zpos (Pos.iter xO m 52); shr_r := false; shr_s := false |} (-52 + e) 52)
    with ({| shr_m := Zpos m; shr_r := false; shr_s := false |}, e).
  2:{ unfold shr. replace (-52 + e + 52) with e by lia. reflexivity. }
  cbn [shr_m loc_of_shr_record round_nearest_even Zdigits2].
  rewrite fexp_eq.
  replace (Z.max (Zpos (digits2_pos m) + e - 53) (-1074) - e) with 0 by lia.
  cbn [shr shr_m]. rewrite H2. reflexivity.
Qed.

Lemma feqb_sym (a b : float) : feqb a b = feqb b a.
Proof.
  unfold feqb, SFeqb, SFcompare.
  destruct a as [sa|sa| |sa ma ea], b as [sb|sb| |sb mb eb]; try reflexivity;
    try (destruct sa; reflexivity); try (destruct sb; reflexivity);
    try (destruct sa, sb; reflexivity).
  fold (Pos.compare ma mb). fold (Pos.compare mb ma).
  rewrite (Z.compare_antisym ea eb), (Pos.compare_antisym ma mb).
  destruct sa, sb; try reflexivity;
    destruct (ea ?= eb); try reflexivity; cbn [CompOpp];
    destruct (ma ?= mb)%positive; reflexivity.
Qed.

Lemma Qtruncate_comp (x y : Q) : (x == y)%Q -> Qtruncate x = Qtruncate y.
Proof.
  intros E. unfold Qtruncate. rewrite (Qleb_comp 0%Q 0%Q (Qeq_refl _) x y E).
  destruct (Qle_bool 0 y); [apply Qfloor_comp | apply Qceiling_comp]; exact E.
Qed.

Lemma Qtruncate_Z (n : Z) : Qtruncate (inject_Z n) = n.
Proof.
  unfold Qtruncate. destruct (Qle_bool _ _); [apply Qfloor_Z | apply Qceiling_Z].
Qed.

(** Truncation of a quotient with a positive denominator. *)
Lemma Qtruncate_div (s : bool) (m k : Z) :
  0 <= m -> 0 < k ->
  Qtruncate (inject_Z (cond_Zopp s m) / inject_Z k) = cond_Zopp s (m / k).
Proof.
  intros Hm Hk. unfold Qtruncate.
  assert (0 < inject_Z k)%Q as HkQ by (change (inject_Z 0 < inject_Z k)%Q; rewrite <- Zlt_Qlt; lia).
  destruct s; cbn [cond_Zopp].
  - destruct (Z.eq_dec m 0) as [->|Hm0].
    { cbn. reflexivity. }
    assert (Qle_bool 0 (inject_Z (- m) / inject_Z k) = false) as ->.
    { apply not_true_iff_false. intros H%Qle_bool_iff.
      apply (Qmult_le_compat_r _ _ (inject_Z k)) in H; [|apply Qlt_le_weak; exact HkQ].
      rewrite Qmult_0_l, Qmult_comm, Qmult_div_r in H.
      2:{ intros E. rewrite E in HkQ. discriminate. }
      change (inject_Z 0 <= inject_Z (- m))%Q in H. rewrite <- Zle_Qle in H. lia. }
    unfold Qceiling. f_equal.
    rewrite Zdiv_Qdiv. apply Qfloor_comp.
    rewrite inject_Z_opp. field. intros E. rewrite E in HkQ. discriminate.
  - assert (Qle_bool 0 (inject_Z m / inject_Z k) = true) as ->.
    { apply Qle_bool_iff. apply Qle_shift_div_l; [exact HkQ|].
      rewrite Qmult_0_l. change (inject_Z 0 <= inject_Z m)%Q. rewrite <- Zle_Qle. lia. }
    symmetry. apply Zdiv_Qdiv.
Qed.

(** [int] rounds the value of a float towards zero. *)
Lemma py_int_truncates (x : float) (z : Z) :
  py_int x = Ok z -> z = Qtruncate (float_value x).
Proof.
  destruct x as [s|s| |s m e]; cbn [py_int float_value]; intros [= <-].
  - reflexivity.
  - destruct (Z.le_gt_cases 0 e) as [He|He].
    + rewrite Z.shiftl_mul_pow2 by lia.
      rewrite <- (Qtruncate_Z (cond_Zopp s (Zpos m * 2 ^ e))).
      apply Qtruncate_comp.
      replace (cond_Zopp s (Zpos m * 2 ^ e)) with (cond_Zopp s (Zpos m) * 2 ^ e)
        by (destruct s; cbn [cond_Zopp]; lia).
      rewrite inject_Z_mult, Zpower_Qpower by lia. reflexivity.
    + assert (exists k, 0 < k /\ e = - k) as (k & Hk & ->) by (exists (- e); lia).
      rewrite Z.shiftl_opp_r, Z.shiftr_div_pow2 by lia.
      rewrite <- Qtruncate_div by (try apply Z.pow_pos_nonneg; lia).
      apply Qtruncate_comp.
      rewrite Zpower_Qpower, Qpower_opp by lia. reflexivity.
Qed.

(** ** The example directory *)

(** *** Rounding in the normal range *)












Example init_example :
  __init__ example_lib example_fs (lit "map") (1920, 1080) empty_world
  = (Ok example_self, example_world).
Proof. vm_compute. reflexivity. Qed.

(** ** Running the monad *)

Lemma bind_run {A B} (m : M A) (f : A -> M B) (w : world) :
  (m ≫= f) w = match m w with
               | (Ok a, w') => f a w'
               | (Raise e, w') => (Raise e, w')
               end.
Proof. reflexivity. Qed.

Lemma bind_ok {A B} (m : M A) (f : A -> M B) (w w' : world) (a : A) :
  m w = (Ok a, w') -> (m ≫= f) w = f a w'.
Proof. intros H. rewrite bind_run, H. reflexivity. Qed.

Lemma load_ok (l : loc) (w : world) (a : ndarray) :
  heap w !! l = Some a -> load l w = (Ok a, w).
Proof. intros H. unfold load. rewrite H. reflexivity. Qed.

(** ** The transform *)

(** With four corners of two fields or more and the image in place,
    [_convert_to_pixel] is the formula of each axis, and it leaves the
    world alone. *)
Lemma _convert_to_pixel_axes (self : CoordinateDrawer) (w : world) (l : loc)
  (img : ndarray) (lb rt lt_rest rb_rest : list float)
  (lt_lon lt_lat rb_lon rb_lat lon lat : float) :
  original_image self = Some l ->
  heap w !! l = Some img ->
  corner_points self
    = Some [lb; lt_lon :: lt_lat :: lt_rest; rt; rb_lon :: rb_lat :: rb_rest] ->
  _convert_to_pixel self lon lat w
  = (x ← to_pixel_axis lon lt_lon rb_lon (shape1 img);
     y ← to_pixel_axis lat lt_lat rb_lat (shape0 img);
     Ok (x, y), w).
Proof.
  intros Ho Hh Hc. unfold _convert_to_pixel. rewrite Ho, Hc.
  cbn [attr]. rewrite (bind_ok _ _ w w l) by reflexivity.
  rewrite (bind_ok _ _ w w img) by (apply load_ok; exact Hh).
  reflexivity.
Qed.

Lemma float_of_int_normalize (n : Z) (x : float) :
  float_of_int n = Ok x -> x = binary_normalize prec emax n 0 false.
Proof.
  unfold float_of_int. destruct (binary_normalize prec emax n 0 false); congruence.
Qed.

(** One axis, when the divisor is not zero and the product is finite. *)
Lemma to_pixel_axis_ok (v lo hi : float) (extent : Z) :
  0 <= extent < 2 ^ 53 ->
  is_zero (fsub hi lo) = false ->
  is_finite (scaled_position v lo hi extent) = true ->
  to_pixel_axis v lo hi extent
  = Ok (Qtruncate (float_value (scaled_position v lo hi extent))).
Proof.
  intros He Hz Hf. unfold to_pixel_axis, py_truediv, py_sub. rewrite Hz.
  destruct (float_of_int_exact extent He) as (x & Hx & _).
  pose proof (float_of_int_normalize _ _ Hx) as ->.
  unfold float_mul_int. rewrite Hx. cbn [mbind result_bind mret result_ret].
  fold (scaled_position v lo hi extent). unfold py_mul.
  fold (scaled_position v lo hi extent).
  destruct (py_int (scaled_position v lo hi extent)) as [z|e] eqn:Hi.
  - f_equal. apply py_int_truncates. exact Hi.
  - destruct (scaled_position v lo hi extent); discriminate.
Qed.

(** Distinct floats have a nonzero difference. *)
Lemma fsub_is_zero_false (a b : float) :
  valid a = true -> valid b = true ->
  py_ne a b = true -> is_zero (fsub b a) = false.
Proof.
  intros Va Vb Hne. unfold py_ne in Hne. apply negb_true_iff in Hne.
  destruct (is_finite a) eqn:Fa, (is_finite b) eqn:Fb.
  - rewrite feqb_sym in Hne.
    pose proof (fsub_ne b a Vb Va Fb Fa Hne) as H.
    destruct (fsub b a); try reflexivity; contradiction.
  - destruct a as [?|?| |? ? ?], b as [?|[]| |? ? ?]; try discriminate; reflexivity.
  - destruct a as [?|[]| |? ? ?], b as [?|?| |? ? ?]; try discriminate; reflexivity.
  - destruct a as [?|[]| |? ? ?], b as [?|[]| |? ? ?]; try discriminate; reflexivity.
Qed.

Lemma feqb_finite_true (s s' : bool) (m m' : positive) (e e' : Z) :
  feqb (S754_finite s m e) (S754_finite s' m' e') = true ->
  s = s' /\ m = m' /\ e = e'.
Proof.
  unfold feqb, SFeqb, SFcompare. fold (Pos.compare m m'). intros H.
  destruct s, s', (e ?= e') eqn:Ee, (m ?= m')%positive eqn:Em;
    cbn in H; try discriminate;
    apply Z.compare_eq in Ee; apply Pos.compare_eq in Em; auto.
Qed.

(** Equal finite floats have a zero difference. *)
Lemma fsub_is_zero_true (a b : float) :
  is_finite a = true -> is_finite b = true ->
  feqb a b = true -> is_zero (fsub b a) = true.
Proof.
  intros Fa Fb He.
  destruct a as [sa|?| |sa ma ea], b as [sb|?| |sb mb eb]; try discriminate.
  - destruct sa, sb; reflexivity.
  - destruct sb; discriminate.
  - destruct sa; discriminate.
  - apply feqb_finite_true in He as (-> & -> & ->).
    rewrite fsub_diag by reflexivity. reflexivity.
Qed.

Lemma to_pixel_axis_degenerate (v lo hi : float) (extent : Z) :
  is_finite lo = true -> is_finite hi = true -> feqb lo hi = true ->
  to_pixel_axis v lo hi extent = Raise ZeroDivisionError.
Proof.
  intros Fl Fh He. unfold to_pixel_axis, py_truediv, py_sub.
  rewrite (fsub_is_zero_true lo hi Fl Fh He). reflexivity.
Qed.

(** What one axis can raise. *)
Lemma to_pixel_axis_raises (v lo hi : float) (extent : Z) (e : exn) :
  to_pixel_axis v lo hi extent = Raise e ->
  e = ZeroDivisionError \/ e = OverflowError \/ e = ValueError nan_to_integer.
Proof.
  unfold to_pixel_axis, py_truediv, float_mul_int, float_of_int.
  destruct (is_zero _); [intros [= <-]; auto|].
  cbn [mbind result_bind].
  destruct (binary_normalize prec emax extent 0 false); cbn [mbind result_bind];
    try (intros [= <-]; auto);
    match goal with |- py_int ?x = _ -> _ => destruct x end;
    cbn [py_int]; intros [= <-]; auto.
Qed.

Lemma to_pixel_axis_lo (lo hi : float) (extent : Z) :
  valid lo = true -> valid hi = true ->
  is_finite lo = true -> is_finite hi = true ->
  py_ne lo hi = true ->
  0 <= extent < 2 ^ 53 ->
  to_pixel_axis lo lo hi extent = Ok 0.
Proof.
  intros Vl Vh Fl Fh Hne He.
  unfold to_pixel_axis, py_truediv, py_sub.
  rewrite (fsub_is_zero_false lo hi Vl Vh Hne), (fsub_diag lo Fl).
  pose proof (fsub_ne hi lo Vh Vl Fh Fl) as Hd.
  rewrite feqb_sym in Hd. unfold py_ne in Hne. apply negb_true_iff in Hne.
  specialize (Hd Hne).
  destruct (float_of_int_exact extent He) as (x & Hx & Fx & _).
  unfold float_mul_int. rewrite Hx. cbn [mbind result_bind].
  destruct (fsub hi lo) as [?|sd| |sd md ed]; try contradiction;
    destruct x as [?|?| |? ? ?]; try discriminate; reflexivity.
Qed.

Lemma to_pixel_axis_hi (lo hi : float) (extent : Z) :
  valid lo = true -> valid hi = true ->
  is_finite lo = true -> is_finite hi = true ->
  py_ne lo hi = true ->
  is_finite (fsub hi lo) = true ->
  0 <= extent < 2 ^ 53 ->
  to_pixel_axis hi lo hi extent = Ok extent.
Proof.
  intros Vl Vh Fl Fh Hne Fd He.
  unfold to_pixel_axis, py_truediv, py_sub.
  rewrite (fsub_is_zero_false lo hi Vl Vh Hne).
  pose proof (fsub_ne hi lo Vh Vl Fh Fl) as Hd.
  rewrite feqb_sym in Hd. unfold py_ne in Hne. apply negb_true_iff in Hne.
  specialize (Hd Hne).
  destruct (float_of_int_exact extent He) as (x & Hx & Fx & Vx & Hi).
  unfold float_mul_int. rewrite Hx. cbn [mbind result_bind].
  destruct (fsub hi lo) as [?|sd| |sd md ed]; try contradiction; try discriminate.
  rewrite fdiv_diag. unfold py_mul.
  destruct x as [sx|?| |sx mx ex]; try discriminate.
  - cbn in Hi |- *. exact Hi.
  - rewrite fmul_one_l by exact Vx. exact Hi.
Qed.

(** C1 (amended): for a mapper over an image of width W and height H whose
    left-top and right-bottom corners differ in longitude and in latitude,
    the transform returns, for every input whose scaled position is a
    finite float, x = the truncation towards zero of
    (lon - leftTop.lon) / (rightBottom.lon - leftTop.lon) * W and
    y = the truncation towards zero of
    (lat - leftTop.lat) / (rightBottom.lat - leftTop.lat) * H, the
    arithmetic being that of binary64; it leaves the world as it was. On the
    4000x3000 image with corners (117.60,35.99), (117.60,36.01),
    (117.65,36.01), (117.65,35.99) the input (117.625, 36.00) maps to
    (2000, 1500). *)
Theorem convert_to_pixel_truncates :
  (forall (self : CoordinateDrawer) (w : world) (l : loc) (img : ndarray)
          (lb rt lt_rest rb_rest : list float)
          (lt_lon lt_lat rb_lon rb_lat lon lat : float),
      original_image self = Some l ->
      heap w !! l = Some img ->
      0 <= shape1 img < 2 ^ 53 ->
      0 <= shape0 img < 2 ^ 53 ->
      corner_points self
        = Some [lb; lt_lon :: lt_lat :: lt_rest; rt; rb_lon :: rb_lat :: rb_rest] ->
      valid lt_lon = true -> valid rb_lon = true ->
      valid lt_lat = true -> valid rb_lat = true ->
      py_ne lt_lon rb_lon = true ->
      py_ne lt_lat rb_lat = true ->
      let fx := scaled_position lon lt_lon rb_lon (shape1 img) in
      let fy := scaled_position lat lt_lat rb_lat (shape0 img) in
      is_finite fx = true ->
      is_finite fy = true ->
      _convert_to_pixel self lon lat w
      = (Ok (Qtruncate (float_value fx), Qtruncate (float_value fy)), w))
  /\ _convert_to_pixel example_self (decimal 117625 3) (decimal 3600 2) example_world
     = (Ok (2000, 1500), example_world).
Proof.
  split; [|vm_compute; reflexivity].
  intros self w l img lb rt lt_rest rb_rest lt_lon lt_lat rb_lon rb_lat lon lat
    Ho Hh HW HH Hc Vx0 Vx1 Vy0 Vy1 Nx Ny fx fy Fx Fy.
  rewrite (_convert_to_pixel_axes self w l img lb rt lt_rest rb_rest
             lt_lon lt_lat rb_lon rb_lat lon lat Ho Hh Hc).
  rewrite (to_pixel_axis_ok lon lt_lon rb_lon (shape1 img) HW
             (fsub_is_zero_false _ _ Vx0 Vx1 Nx) Fx).
  rewrite (to_pixel_axis_ok lat lt_lat rb_lat (shape0 img) HH
             (fsub_is_zero_false _ _ Vy0 Vy1 Ny) Fy).
  reflexivity.
Qed.

Lemma convert_to_pixel_truncates_witness :
  _convert_to_pixel example_self (decimal 117625 3) (decimal 3600 2) example_world
  = (Ok (Qtruncate (float_value
                      (scaled_position (decimal 117625 3) (decimal 11760 2)
                                       (decimal 11765 2) 4000)),
         Qtruncate (float_value
                      (scaled_position (decimal 3600 2) (decimal 3601 2)
                                       (decimal 3599 2) 3000))),
     example_world).
Proof.
  apply (proj1 convert_to_pixel_truncates example_self example_world 0%nat
           (blank 3000 4000) [decimal 11760 2; decimal 3599 2]
           [decimal 11765 2; decimal 3601 2] [] []);
    first [ reflexivity | cbn; lia ].
Defined.

(** C1, as the claim states it, fails: 117.59999 lies left of the image of
    the example, its scaled position is about -0.8, the floor of which is
    -1; the transform returns 0. *)
Lemma convert_to_pixel_not_floor :
  _convert_to_pixel example_self (decimal 11759999 5) (decimal 3600 2) example_world
  = (Ok (0, 1500), example_world)
  /\ Qfloor (float_value (scaled_position (decimal 11759999 5) (decimal 11760 2)
                                          (decimal 11765 2) 4000)) = -1.
Proof. split; vm_compute; reflexivity. Qed.

(** C2: for a mapper over an image of width W and height H whose left-top
    and right-bottom corners are finite floats that differ in longitude and
    in latitude, the transform maps the left-top corner to (0, 0) and, the
    differences of the corners being finite, the right-bottom corner to
    (W, H). *)
Theorem corners_map_to_image_corners
  (self : CoordinateDrawer) (w : world) (l : loc) (img : ndarray)
  (lb rt lt_rest rb_rest : list float) (lt_lon lt_lat rb_lon rb_lat : float) :
  original_image self = Some l ->
  heap w !! l = Some img ->
  0 <= shape1 img < 2 ^ 53 ->
  0 <= shape0 img < 2 ^ 53 ->
  corner_points self
    = Some [lb; lt_lon :: lt_lat :: lt_rest; rt; rb_lon :: rb_lat :: rb_rest] ->
  valid lt_lon = true -> valid rb_lon = true ->
  valid lt_lat = true -> valid rb_lat = true ->
  is_finite lt_lon = true -> is_finite rb_lon = true ->
  is_finite lt_lat = true -> is_finite rb_lat = true ->
  py_ne lt_lon rb_lon = true ->
  py_ne lt_lat rb_lat = true ->
  is_finite (py_sub rb_lon lt_lon) = true ->
  is_finite (py_sub rb_lat lt_lat) = true ->
  _convert_to_pixel self lt_lon lt_lat w = (Ok (0, 0), w)
  /\ _convert_to_pixel self rb_lon rb_lat w = (Ok (shape1 img, shape0 img), w).
Proof.
  intros Ho Hh HW HH Hc Vx0 Vx1 Vy0 Vy1 Fx0 Fx1 Fy0 Fy1 Nx Ny Dx Dy.
  split.
  - rewrite (_convert_to_pixel_axes self w l img lb rt lt_rest rb_rest
               lt_lon lt_lat rb_lon rb_lat _ _ Ho Hh Hc).
    rewrite to_pixel_axis_lo, to_pixel_axis_lo by assumption. reflexivity.
  - rewrite (_convert_to_pixel_axes self w l img lb rt lt_rest rb_rest
               lt_lon lt_lat rb_lon rb_lat _ _ Ho Hh Hc).
    rewrite to_pixel_axis_hi, to_pixel_axis_hi by assumption. reflexivity.
Qed.

Lemma corners_map_to_image_corners_witness :
  _convert_to_pixel example_self (decimal 11760 2) (decimal 3601 2) example_world
  = (Ok (0, 0), example_world)
  /\ _convert_to_pixel example_self (decimal 11765 2) (decimal 3599 2) example_world
     = (Ok (4000, 3000), example_world).
Proof.
  apply (corners_map_to_image_corners example_self example_world 0%nat
           (blank 3000 4000) [decimal 11760 2; decimal 3599 2]
           [decimal 11765 2; decimal 3601 2] [] []);
    first [ reflexivity | cbn; lia ].
Defined.

(** ** Arrays that a computation leaves alone *)

Section Keeps.

Context (l : loc) (P : ndarray -> Prop).

Lemma keeps_ret {A} (x : A) (Q : A -> Prop) : Q x -> keeps l P (mret x) Q.
Proof. intros HQ w a Hw Ha. split; [eauto|]. intros y [= <-]. exact HQ. Qed.

Lemma keeps_raise {A} (e : exn) (Q : A -> Prop) : keeps l P (raise e) Q.
Proof. intros w a Hw Ha. split; [eauto|]. intros y [=]. Qed.

Lemma keeps_lift {A} (r : result A) (Q : A -> Prop) :
  (forall x, r = Ok x -> Q x) -> keeps l P (lift r) Q.
Proof. intros HQ w a Hw Ha. split; [eauto|]. exact HQ. Qed.


Lemma keeps_bind {A B} (m : M A) (f : A -> M B) (Q : A -> Prop) (R : B -> Prop) :
  keeps l P m Q -> (forall x, Q x -> keeps l P (f x) R) -> keeps l P (m ≫= f) R.
Proof.
  intros Hm Hf w a Hw Ha. rewrite bind_run.
  destruct (Hm w a Hw Ha) as [(a1 & H1 & P1) H2].
  destruct (m w) as [[x|e] w1]; cbn [fst snd] in *.
  - apply (Hf x (H2 x eq_refl) w1 a1 H1 P1).
  - split; [eauto|]. intros y [=].
Qed.

Lemma keeps_load (x : loc) : keeps l P (load x) (fun _ => True).
Proof.
  intros w a Hw Ha. unfold load. destruct (heap w !! x); (split; [eauto | auto]).
Qed.

(** A new array never takes the place of one that exists. *)
Lemma keeps_alloc (b : ndarray) : keeps l P (alloc b) (fun r => r <> l).
Proof.
  intros w a Hw Ha. unfold alloc. cbn [fst snd heap].
  assert (fresh (dom (heap w)) <> l) as Hne.
  { intros E. apply (is_fresh (dom (heap w))). rewrite E.
    apply elem_of_dom. eauto. }
  split.
  - exists a. rewrite lookup_insert_ne by exact Hne. auto.
  - intros x [= <-]. exact Hne.
Qed.

Lemma keeps_store_px (x : loc) (p : Z -> Z -> pixel) :
  harmless l P x -> keeps l P (store_px x p) (fun _ => True).
Proof.
  intros Hx w a Hw Ha. unfold store_px.
  destruct (heap w !! x) as [b|] eqn:Hb; cbn [fst snd heap]; [|split; eauto].
  split; [|auto].
  destruct (decide (x = l)) as [->|Hne].
  - rewrite lookup_insert_eq. eexists. split; [reflexivity|].
    destruct Hx as [Hx|Hx]; [contradiction|].
    assert (b = a) as -> by congruence. apply (Hx a p Ha).
  - exists a. rewrite lookup_insert_ne by exact Hne. auto.
Qed.


Lemma keeps_Image_show (x : loc) : keeps l P (Image_show x) (fun _ => True).
Proof.
  unfold Image_show. eapply keeps_bind; [apply keeps_load|].
  intros b _ w a Hw Ha. split; [eauto | auto].
Qed.


Lemma keeps_np_full (rows cols v : Z) : keeps l P (np_full rows cols v) (fun r => r <> l).
Proof.
  unfold np_full. destruct (_ || _); [apply keeps_raise | apply keeps_alloc].
Qed.

Lemma keeps_setitem_slice (dst src : loc) (y0 y1 x0 x1 : Z) :
  harmless l P dst -> keeps l P (setitem_slice dst y0 y1 x0 x1 src) (fun _ => True).
Proof.
  intros Hne. unfold setitem_slice.
  eapply keeps_bind; [apply keeps_load|]. intros d _.
  eapply keeps_bind; [apply keeps_load|]. intros s _.
  destruct (slice_bounds _ y0 y1), (slice_bounds _ x0 x1).
  destruct (_ && _); [apply keeps_store_px; exact Hne | apply keeps_raise].
Qed.

Lemma keeps_cvtColor (x : loc) : keeps l P (cv2_cvtColor_BGR2RGB x) (fun r => r <> l).
Proof.
  unfold cv2_cvtColor_BGR2RGB. eapply keeps_bind; [apply keeps_load|]. intros b _.
  destruct (_ || _); [apply keeps_raise | apply keeps_alloc].
Qed.


Context (lib : Library).

Lemma keeps_resize (x : loc) (w h : Z) : keeps l P (resize lib x w h) (fun r => r <> l).
Proof.
  unfold resize. eapply keeps_bind; [apply keeps_load|]. intros b _.
  destruct (_ && _); [apply keeps_alloc | apply keeps_raise].
Qed.


Lemma keeps__resize_with_padding (self : CoordinateDrawer) (x : loc) :
  keeps l P (_resize_with_padding lib self x) (fun r => r <> l).
Proof.
  unfold _resize_with_padding. destruct (display_size self) as [tw th].
  eapply keeps_bind; [apply keeps_load|]. intros img _.
  apply (keeps_bind _ _ (fun _ => True)); [apply keeps_lift; auto|]. intros sx _.
  apply (keeps_bind _ _ (fun _ => True)); [apply keeps_lift; auto|]. intros sy _.
  apply (keeps_bind _ _ (fun _ => True)); [apply keeps_lift; auto|]. intros nw _.
  apply (keeps_bind _ _ (fun _ => True)); [apply keeps_lift; auto|]. intros nh _.
  eapply keeps_bind; [apply keeps_np_full|]. intros d Hd.
  eapply keeps_bind; [apply keeps_resize|]. intros z _.
  eapply keeps_bind; [apply keeps_setitem_slice; left; exact Hd|]. intros _ _.
  apply keeps_ret. exact Hd.
Qed.


Lemma keeps_display (self : CoordinateDrawer) (r : loc) (show : bool) :
  keeps l P (if show
             then display_img ← _resize_with_padding lib self r;
                  rgb_display ← cv2_cvtColor_BGR2RGB display_img;
                  Image_show rgb_display
             else mret tt) (fun _ => True).
Proof.
  destruct show; [|apply keeps_ret; exact I].
  eapply keeps_bind; [apply keeps__resize_with_padding|]. intros d _.
  eapply keeps_bind; [apply keeps_cvtColor|]. intros g _.
  apply keeps_Image_show.
Qed.


End Keeps.

(** The special case of one array that stays what it is. *)
Lemma keeps_eq {A} (l : loc) (a : ndarray) (m : M A) (Q : A -> Prop) (w : world) :
  keeps l (eq a) m Q -> heap w !! l = Some a ->
  heap (m w).2 !! l = Some a /\ forall x, (m w).1 = Ok x -> Q x.
Proof.
  intros K Hw. destruct (K w a Hw eq_refl) as [(a' & H1 & <-) H2]. auto.
Qed.

(** ** [draw] *)

Lemma _convert_to_pixel_world (self : CoordinateDrawer) (lon lat : float) (w : world) :
  (_convert_to_pixel self lon lat w).2 = w.
Proof.
  unfold _convert_to_pixel, attr, load, lift, raise, mbind, M_bind, mret, M_ret.
  destruct (original_image self) as [l|]; [|reflexivity].
  destruct (heap w !! l) as [img|]; [|reflexivity].
  destruct (corner_points self) as [cp|]; [|reflexivity].
  destruct (unpack4 cp) as [[[[lb lt] rt] rb]|]; reflexivity.
Qed.

Lemma _convert_to_pixel_frame (self : CoordinateDrawer) (l : loc)
  (lon lat : float) (w w' : world) :
  original_image self = Some l ->
  heap w !! l = heap w' !! l ->
  (_convert_to_pixel self lon lat w).1 = (_convert_to_pixel self lon lat w').1.
Proof.
  intros Ho Hh.
  unfold _convert_to_pixel, attr, load, lift, raise, mbind, M_bind, mret, M_ret.
  rewrite Ho, <- Hh.
  destruct (heap w !! l) as [img|]; [|reflexivity].
  destruct (corner_points self) as [cp|]; [|reflexivity].
  destruct (unpack4 cp) as [[[[lb lt] rt] rb]|]; reflexivity.
Qed.

Lemma world_eta (w : world) : {| heap := heap w; viewer := viewer w |} = w.
Proof. destruct w; reflexivity. Qed.

Section Draw.

Context (lib : Library) (self : CoordinateDrawer) (l r : loc)
        (color : pixel) (size : Z).
Hypothesis Horig : original_image self = Some l.
Hypothesis Hlr : r <> l.
Hypothesis Hsize : 0 <= size < 2 ^ 31.

(** One turn of the loop on a coordinate that has a position. *)
Lemma draw_point_run (c : float * float) (p : Z * Z) (w : world) (cur : ndarray) :
  (_convert_to_pixel self c.1 c.2 w).1 = Ok p ->
  heap w !! r = Some cur ->
  draw_point lib self r color size c w
  = (Ok tt, {| heap := <[r := if in_bounds cur p
                              then with_px cur (cv2_circle lib cur p size color (-1))
                              else cur]> (heap w);
               viewer := viewer w |}).
Proof.
  intros Hp Hr. destruct c as [lon lat], p as [x y]. unfold draw_point.
  cbn [fst snd] in Hp.
  pose proof (_convert_to_pixel_world self lon lat w) as Hw.
  destruct (_convert_to_pixel self lon lat w) as [res w0] eqn:E.
  cbn [fst snd] in *. subst res w0.
  rewrite (bind_ok _ _ w w (x, y)) by exact E. cbv beta iota.
  rewrite (bind_ok _ _ w w cur) by (apply load_ok; exact Hr).
  unfold in_bounds. cbn [fst snd].
  destruct ((0 <=? x) && (x <? shape1 cur) && (0 <=? y) && (y <? shape0 cur)).
  - unfold circle. rewrite (bind_ok _ _ w w cur) by (apply load_ok; exact Hr).
    assert ((0 <=? size) && (size <? 2 ^ 31) = true) as ->.
    { apply andb_true_iff. split; [apply Z.leb_le | apply Z.ltb_lt]; lia. }
    unfold store_px. rewrite Hr. reflexivity.
  - rewrite insert_id by exact Hr. rewrite world_eta. reflexivity.
Qed.

(** The loop of [draw]: the copy ends with a circle at every position
    inside the image, in the order of the coordinates. *)
Lemma draw_loop (coords : list (float * float)) (positions : list (Z * Z))
  (w0 w : world) (img cur : ndarray) :
  heap w0 !! l = Some img ->
  heap w !! l = Some img ->
  heap w !! r = Some cur ->
  shape0 cur = shape0 img -> shape1 cur = shape1 img ->
  Forall2 (fun c p => (_convert_to_pixel self c.1 c.2 w0).1 = Ok p) coords positions ->
  for_each coords (draw_point lib self r color size) w
  = (Ok tt,
     {| heap := <[r := marked lib size color
                         (filter (fun p => in_bounds img p = true) positions) cur]>
                  (heap w);
        viewer := viewer w |}).
Proof.
  intros H0 Hl Hr S0 S1 HF. revert w cur Hl Hr S0 S1.
  induction HF as [|c p coords positions Hc HF IH]; intros w cur Hl Hr S0 S1.
  - cbn. rewrite insert_id by exact Hr. rewrite world_eta. reflexivity.
  - cbn [for_each].
    assert ((_convert_to_pixel self c.1 c.2 w).1 = Ok p) as Hc'.
    { rewrite <- Hc. apply (_convert_to_pixel_frame self l); [exact Horig|].
      rewrite Hl, H0. reflexivity. }
    rewrite (bind_ok _ _ _ _ _ (draw_point_run c p w cur Hc' Hr)).
    assert (in_bounds cur p = in_bounds img p) as Hb.
    { unfold in_bounds. rewrite S0, S1. reflexivity. }
    rewrite Hb, filter_cons.
    set (cur' := if in_bounds img p
                 then with_px cur (cv2_circle lib cur p size color (-1)) else cur).
    rewrite (IH _ cur'); cbn [heap viewer].
    + rewrite insert_insert_eq. do 3 f_equal.
      subst cur'. destruct (in_bounds img p) eqn:Ep.
      * rewrite decide_True by reflexivity. reflexivity.
      * rewrite decide_False by discriminate. reflexivity.
    + rewrite lookup_insert_ne by exact Hlr. exact Hl.
    + apply lookup_insert_eq.
    + subst cur'. destruct (in_bounds img p); exact S0.
    + subst cur'. destruct (in_bounds img p); exact S1.
Qed.

(** [draw] up to the display: the copy, at a new address, with its
    markers. *)
Lemma draw_run (coords : list (float * float)) (positions : list (Z * Z))
  (show : bool) (w : world) (img : ndarray) :
  r = fresh (dom (heap w)) ->
  heap w !! l = Some img ->
  Forall2 (fun c p => (_convert_to_pixel self c.1 c.2 w).1 = Ok p) coords positions ->
  let out := draw lib self coords color size show w in
  let result := marked lib size color
                  (filter (fun p => in_bounds img p = true) positions) img in
  heap out.2 !! r = Some result
  /\ heap out.2 !! l = Some img
  /\ (show = false ->
      out = (Ok r, {| heap := <[r := result]> (heap w); viewer := viewer w |}))
  /\ (forall x, out.1 = Ok x -> x = r)
  /\ (forall e, out.1 = Raise e -> show = true).
Proof.
  intros Hr Hl HF out result. subst out. unfold draw.
  rewrite Horig. cbn [attr]. rewrite (bind_ok _ _ w w l) by reflexivity.
  set (w1 := {| heap := <[r := img]> (heap w); viewer := viewer w |}).
  assert (ndarray_copy l w = (Ok r, w1)) as Hcopy.
  { unfold ndarray_copy. rewrite (bind_ok _ _ w w img) by (apply load_ok; exact Hl).
    unfold alloc. rewrite <- Hr. reflexivity. }
  rewrite (bind_ok _ _ _ _ _ Hcopy).
  assert (heap w1 !! l = Some img) as Hl1.
  { cbn. rewrite lookup_insert_ne by exact Hlr. exact Hl. }
  assert (heap w1 !! r = Some img) as Hr1 by apply lookup_insert_eq.
  pose proof (draw_loop coords positions w w1 img img Hl Hl1 Hr1 eq_refl eq_refl HF) as Hloop.
  fold result in Hloop. cbn [heap viewer w1] in Hloop. rewrite insert_insert_eq in Hloop.
  set (w2 := {| heap := <[r := result]> (heap w); viewer := viewer w |}) in *.
  rewrite (bind_ok _ _ _ _ _ Hloop).
  assert (heap w2 !! r = Some result) as Hr2 by apply lookup_insert_eq.
  assert (heap w2 !! l = Some img) as Hl2.
  { cbn. rewrite lookup_insert_ne by exact Hlr. exact Hl. }
  rewrite bind_run.
  destruct (keeps_eq r result _ _ w2 (keeps_display r (eq result) lib self r show) Hr2)
    as [K1 _].
  destruct (keeps_eq l img _ _ w2 (keeps_display l (eq img) lib self r show) Hl2)
    as [K2 _].
  destruct show.
  - lazymatch type of K1 with heap (?t).2 !! _ = _ => destruct t as [[u|e] w3] end;
      cbn [fst snd] in *.
    + repeat split; try assumption; try discriminate. intros x [= <-]. reflexivity.
    + repeat split; try assumption; try discriminate.
  - cbn in *. repeat split; try assumption; try discriminate.
    intros x [= <-]. reflexivity.
Qed.

End Draw.

Lemma fresh_not_allocated (w : world) : heap w !! fresh (dom (heap w)) = None.
Proof. apply not_elem_of_dom, is_fresh. Qed.

Lemma fresh_ne (w : world) (l : loc) (a : ndarray) :
  heap w !! l = Some a -> fresh (dom (heap w)) <> l.
Proof. intros H E. pose proof (fresh_not_allocated w) as F. rewrite E in F. congruence. Qed.

(** C5: [draw] copies the stored image to a new address and, for a
    sequence of coordinates each of which the transform gives a position,
    draws on the copy one filled circle (thickness -1) of the given radius
    and color at every position with 0 <= x < width and 0 <= y < height, in
    the order of the coordinates; a position outside is skipped, and the
    loop raises nothing: the call returns the copy, unless the display that
    [show] asks for raises. *)
Theorem draw_marks_positions_in_bounds
  (lib : Library) (self : CoordinateDrawer) (w : world) (l : loc) (img : ndarray)
  (coords : list (float * float)) (positions : list (Z * Z))
  (color : pixel) (size : Z) (show : bool) :
  original_image self = Some l ->
  heap w !! l = Some img ->
  0 <= size < 2 ^ 31 ->
  Forall2 (fun c p => (_convert_to_pixel self c.1 c.2 w).1 = Ok p) coords positions ->
  let out := draw lib self coords color size show w in
  let r := fresh (dom (heap w)) in
  heap w !! r = None
  /\ heap out.2 !! r
     = Some (marked lib size color
               (filter (fun p => in_bounds img p = true) positions) img)
  /\ (show = false -> out.1 = Ok r)
  /\ (forall x, out.1 = Ok x -> x = r)
  /\ (forall e, out.1 = Raise e -> show = true).
Proof.
  intros Ho Hl Hs HF out r.
  destruct (draw_run lib self l r color size Ho (fresh_ne w l img Hl) Hs
              coords positions show w img eq_refl Hl HF) as (H1 & _ & H3 & H4 & H5).
  split; [apply fresh_not_allocated|].
  split; [exact H1|].
  split; [|split; assumption].
  intros Hshow. subst out. rewrite (H3 Hshow). reflexivity.
Qed.

Lemma draw_marks_positions_in_bounds_witness :
  heap example_world !! 1%nat = None
  /\ heap (draw example_lib example_self example_coordinates (0, 0, 255) 5 false
             example_world).2 !! 1%nat
     = Some (marked example_lib 5 (0, 0, 255) [(2000, 1500)] (blank 3000 4000))
  /\ (draw example_lib example_self example_coordinates (0, 0, 255) 5 false
        example_world).1 = Ok 1%nat.
Proof.
  assert (Forall2 (fun c p => (_convert_to_pixel example_self c.1 c.2 example_world).1 = Ok p)
            example_coordinates [(2000, 1500); (-799, 1500)]) as HF.
  { repeat (constructor; [vm_compute; reflexivity|]). constructor. }
  destruct (draw_marks_positions_in_bounds example_lib example_self example_world
              0%nat (blank 3000 4000) example_coordinates
              [(2000, 1500); (-799, 1500)] (0, 0, 255) 5 false
              eq_refl eq_refl ltac:(lia) HF)
    as (H1 & H2 & H3 & _).
  split; [exact H1 | split; [exact H2 | exact (H3 eq_refl)]].
Defined.

(** ** [_resize_with_padding] *)












(** ** Strings and the scan of the directory *)

Lemma split_nonempty (sep : N) (s : str) : split sep s <> [].
Proof.
  destruct s as [|c s]; cbn [split]; [discriminate|].
  destruct (c =? sep)%N; [discriminate|]. destruct (split sep s); discriminate.
Qed.

(** *** The string operations against their meaning *)

Lemma startswith_spec (s p : str) : startswith s p = true <-> exists t, s = p ++ t.
Proof.
  revert s. induction p as [|c p IH]; intros s.
  - destruct s; cbn [startswith]; split; eauto.
  - destruct s as [|d s]; cbn [startswith].
    + split; [discriminate | intros [t Ht]; discriminate].
    + rewrite andb_true_iff, N.eqb_eq, IH. split.
      * intros [-> [t ->]]. eauto.
      * intros [t [= -> ->]]. eauto.
Qed.

Lemma endswith_spec (s p : str) : endswith s p = true <-> exists t, s = t ++ p.
Proof.
  unfold endswith. rewrite startswith_spec. split.
  - intros [t Ht]. exists (rev t).
    rewrite <- (rev_involutive s), Ht, rev_app_distr, rev_involutive. reflexivity.
  - intros [t ->]. exists (rev t). apply rev_app_distr.
Qed.

Lemma contains_spec (s p : str) : contains s p = true <-> exists a b, s = a ++ p ++ b.
Proof.
  induction s as [|c s IH]; cbn [contains]; rewrite orb_true_iff, startswith_spec.
  - split.
    + intros [[t Ht]|H]; [|discriminate]. exists [], t. exact Ht.
    + intros (a & b & H). left. destruct a; [eauto | discriminate].
  - rewrite IH. split.
    + intros [[t Ht]|(a & b & ->)]; [exists [], t; exact Ht | exists (c :: a), b; reflexivity].
    + intros (a & b & H). destruct a as [|c' a].
      * left. eauto.
      * right. injection H as -> ->. eauto.
Qed.

Lemma join_cons (sep : N) (piece : str) (rest : list str) :
  rest <> [] -> join sep (piece :: rest) = piece ++ sep :: join sep rest.
Proof. destruct rest; [contradiction | reflexivity]. Qed.

(** The pieces of [split] hold no separator, and joined by it they give the
    string back. *)
Lemma split_spec (sep : N) (s : str) :
  join sep (split sep s) = s /\ Forall (fun piece => sep ∉ piece) (split sep s).
Proof.
  induction s as [|c s [IHj IHf]]; cbn [split].
  - split; [reflexivity|]. repeat constructor. apply not_elem_of_nil.
  - destruct (N.eqb_spec c sep) as [->|Hc].
    + split.
      * rewrite join_cons by apply split_nonempty. now rewrite IHj.
      * constructor; [apply not_elem_of_nil | exact IHf].
    + pose proof (split_nonempty sep s) as Hn.
      destruct (split sep s) as [|w ws]; [contradiction|]. split.
      * rewrite <- IHj. destruct ws; reflexivity.
      * inversion IHf; subst. constructor; [|assumption].
        rewrite elem_of_cons. intros [E|E]; [congruence | contradiction].
Qed.

(** [lstrip] removes the longest prefix of white space. *)
Lemma lstrip_spec (s : str) :
  exists a, s = a ++ lstrip s /\ forallb isspace a = true
            /\ match lstrip s with c :: _ => isspace c = false | [] => True end.
Proof.
  induction s as [|c s (a & E & A & H)]; cbn [lstrip].
  - exists []. auto.
  - destruct (isspace c) eqn:Hc.
    + exists (c :: a). cbn [forallb app]. rewrite Hc, A, <- E. auto.
    + exists []. auto.
Qed.

(** [strip] removes the white space at both ends, and nothing else. *)
Lemma strip_spec (s : str) :
  exists a b, s = a ++ strip s ++ b
    /\ forallb isspace a = true /\ forallb isspace b = true
    /\ (forall c, head (strip s) = Some c -> isspace c = false)
    /\ (forall c, last (strip s) = Some c -> isspace c = false).
Proof.
  unfold strip.
  destruct (lstrip_spec s) as (a & Ea & Ha & Hh).
  destruct (lstrip_spec (rev (lstrip s))) as (b & Eb & Hb & Hl).
  set (t := lstrip s) in *. set (u := lstrip (rev t)) in *.
  assert (Et : t = rev u ++ rev b).
  { rewrite <- rev_app_distr, <- Eb. symmetry. apply rev_involutive. }
  exists a, (rev b). repeat split.
  - rewrite <- Et. exact Ea.
  - exact Ha.
  - rewrite forallb_forall in *. intros c Hc. apply Hb. now apply in_rev.
  - intros c Hc. rewrite Et in Hh.
    destruct (rev u) as [|d r]; [discriminate|]. injection Hc as ->. exact Hh.
  - intros c Hc. destruct u as [|d r]; [discriminate|].
    cbn [rev] in Hc. rewrite last_snoc in Hc. injection Hc as ->. exact Hl.
Qed.

Lemma getitem_last_ok {A} (xs : list A) (d : A) :
  xs <> [] -> getitem_last xs = Ok (List.last xs d).
Proof.
  intros Hne. destruct xs as [|x xs]; [contradiction|].
  unfold getitem_last, getitem.
  destruct (exists_last Hne) as (ys & y & E). rewrite E.
  rewrite List.last_last, length_app. cbn [length].
  replace (length ys + 1 - 1)%nat with (length ys + 0)%nat by lia.
  rewrite lookup_app_r by lia.
  replace (length ys + 0 - length ys)%nat with 0%nat by lia. reflexivity.
Qed.

Lemma endswith_nonempty (f : str) (c : N) (p : str) :
  endswith f (p ++ [c]) = true -> f <> [].
Proof.
  intros H ->. unfold endswith in H. rewrite rev_app_distr in H. discriminate.
Qed.

Lemma os_path_join_truthy (a b : str) : b <> [] -> truthy (Some (os_path_join a b)) = true.
Proof.
  intros Hb. unfold os_path_join.
  destruct (startswith b _).
  - destruct b; [contradiction | reflexivity].
  - destruct (match a with [] => true | _ => _ end).
    + destruct a; cbn; [destruct b; [contradiction | reflexivity] | reflexivity].
    + destruct a; reflexivity.
Qed.

Lemma png_is_not_txt (f : str) :
  endswith f (lit ".png") = true -> endswith f (lit ".txt") = false.
Proof.
  unfold endswith. change (rev (lit ".png")) with [103; 110; 112; 46]%N.
  change (rev (lit ".txt")) with [116; 120; 116; 46]%N.
  destruct (rev f) as [|c r]; [discriminate|]. cbn [startswith].
  intros [H _]%andb_true_iff. apply N.eqb_eq in H. subst c. reflexivity.
Qed.

Lemma chosen_cons (suffix folder f : str) (files : list str) :
  chosen suffix folder (f :: files)
  = match chosen suffix folder files with
    | Some p => Some p
    | None => if endswith f suffix then Some (os_path_join folder f) else None
    end.
Proof.
  unfold chosen. rewrite filter_cons.
  destruct (endswith f suffix) eqn:E.
  - rewrite decide_True by reflexivity. rewrite last_cons.
    destruct (last _); reflexivity.
  - rewrite decide_False by discriminate. destruct (last _); reflexivity.
Qed.

Lemma chosen_None (suffix folder : str) (files : list str) :
  chosen suffix folder files = None
  <-> length (filter (fun f => endswith f suffix = true) files) = 0%nat.
Proof.
  unfold chosen. destruct (filter _ files) as [|x xs] eqn:E.
  - cbn. tauto.
  - rewrite last_cons. destruct (last xs); cbn; split; discriminate.
Qed.

Lemma chosen_truthy (suffix folder : str) (c : N) (p : str) (files : list str) (path : str) :
  suffix = p ++ [c] ->
  chosen suffix folder files = Some path -> truthy (Some path) = true.
Proof.
  intros ->. unfold chosen.
  destruct (last _) as [f|] eqn:E; [|discriminate]. cbn. intros [= <-].
  apply os_path_join_truthy.
  assert (f ∈ filter (fun f => endswith f (p ++ [c]) = true) files) as Hin.
  { apply last_Some_elem_of. exact E. }
  apply list_elem_of_filter in Hin as [Hf _].
  apply (endswith_nonempty f c p Hf).
Qed.

(** The scan keeps, for each of the two extensions, the last name that
    ends with it. *)
Lemma scan_fold (files : list str) (self : CoordinateDrawer) :
  fold_left scan_file files self
  = set_txt_path
      (match chosen (lit ".txt") (folder_path self) files with
       | Some p => Some p
       | None => txt_path self
       end)
      (set_image_path
         (match chosen (lit ".png") (folder_path self) files with
          | Some p => Some p
          | None => image_path self
          end) self).
Proof.
  revert self. induction files as [|f files IH]; intros self.
  - destruct self; reflexivity.
  - cbn [fold_left]. rewrite IH, !chosen_cons.
    unfold scan_file.
    destruct (endswith f (lit ".png")) eqn:Ep.
    + rewrite (png_is_not_txt f Ep). cbn [folder_path set_image_path].
      destruct (chosen (lit ".txt") _ files), (chosen (lit ".png") _ files); reflexivity.
    + destruct (endswith f (lit ".txt")) eqn:Et; cbn [folder_path set_txt_path];
        destruct (chosen (lit ".txt") _ files), (chosen (lit ".png") _ files); reflexivity.
Qed.

(** ** The constructor *)

Lemma map_result_Ok {A B} (f : A -> result B) (xs : list A) (ys : list B) :
  map_result f xs = Ok ys <-> Forall2 (fun x y => f x = Ok y) xs ys.
Proof.
  revert ys. induction xs as [|x xs IH]; intros ys; cbn [map_result].
  - split; [intros [= <-]; constructor | intros H; inversion H; reflexivity].
  - split.
    + destruct (f x) as [y|e] eqn:Ex; [|discriminate]. cbn [mbind result_bind].
      destruct (map_result f xs) as [ys'|e]; [|discriminate]. cbn [mbind result_bind].
      intros [= <-]. constructor; [exact Ex | apply IH; reflexivity].
    + intros H. inversion H as [|x' y xs' ys' Hxy Hrest]; subst.
      rewrite Hxy. cbn [mbind result_bind].
      apply IH in Hrest. rewrite Hrest. reflexivity.
Qed.

Lemma map_result_Raise {A B} (f : A -> result B) (xs : list A) (e : exn) :
  map_result f xs = Raise e -> exists x, x ∈ xs /\ f x = Raise e.
Proof.
  induction xs as [|x xs IH]; cbn [map_result]; [discriminate|].
  destruct (f x) as [y|e'] eqn:Ex; cbn [mbind result_bind].
  - destruct (map_result f xs) as [ys|e'']; cbn [mbind result_bind]; [discriminate|].
    intros [= <-]. destruct (IH eq_refl) as (x' & Hin & Hx').
    exists x'. split; [apply elem_of_cons; auto | exact Hx'].
  - intros [= <-]. exists x. split; [apply elem_of_cons; auto | exact Ex].
Qed.

Lemma matching_cons (line : str) (rest : list str) :
  matching (line :: rest)
  = if contains line marker then line :: matching rest else matching rest.
Proof.
  unfold matching. rewrite filter_cons. destruct (contains line marker).
  - rewrite decide_True by reflexivity. reflexivity.
  - rewrite decide_False by discriminate. reflexivity.
Qed.

Section Init.

Context (lib : Library) (fs : filesystem).

Lemma parse_line_fields (line : str) :
  parse_line lib line = map_result (parse_field lib) (fields line).
Proof.
  unfold parse_line, fields.
  rewrite (getitem_last_ok (split colon line) [] (split_nonempty colon line)). reflexivity.
Qed.

(** The loop of [_read_corner_points] parses the matching lines, in the
    order of the file. *)
Lemma read_points_matching (lines : list str) (acc : list (list float)) :
  read_points lib lines acc
  = (pts ← map_result (parse_line lib) (matching lines); Ok (acc ++ pts)).
Proof.
  revert acc. induction lines as [|line rest IH]; intros acc.
  - cbn. rewrite app_nil_r. reflexivity.
  - cbn [read_points]. rewrite matching_cons.
    destruct (contains line marker); [|apply IH].
    cbn [map_result]. destruct (parse_line lib line) as [p|e]; [|reflexivity].
    cbn [mbind result_bind]. rewrite IH.
    destruct (map_result (parse_line lib) (matching rest)) as [pts|e]; [|reflexivity].
    cbn [mbind result_bind]. rewrite <- app_assoc. reflexivity.
Qed.

(** The only thing the loop raises is the [ValueError] of [float]. *)
Lemma read_points_raises (lines : list str) (e : exn) :
  read_points lib lines [] = Raise e ->
  e = ValueError not_a_float
  /\ exists line field, line ∈ matching lines /\ field ∈ fields line
                        /\ py_float lib field = None.
Proof.
  rewrite read_points_matching.
  destruct (map_result (parse_line lib) (matching lines)) as [pts|e'] eqn:E; [discriminate|].
  cbn [mbind result_bind]. intros [= <-].
  apply map_result_Raise in E as (line & Hline & E).
  rewrite parse_line_fields in E.
  apply map_result_Raise in E as (field & Hfield & E).
  unfold parse_field in E. destruct (py_float lib field) eqn:Ef; [discriminate|].
  injection E as <-. split; [reflexivity|]. eauto.
Qed.

Lemma read_points_ok (lines : list str) (pts : list (list float)) :
  read_points lib lines [] = Ok pts
  <-> Forall2 (fun line pt =>
                 Forall2 (fun field x => py_float lib field = Some x) (fields line) pt)
        (matching lines) pts.
Proof.
  rewrite read_points_matching.
  destruct (map_result (parse_line lib) (matching lines)) as [pts'|e] eqn:E;
    cbn [mbind result_bind app].
  - apply map_result_Ok in E.
    assert (Forall2 (fun line pt =>
                 Forall2 (fun field x => py_float lib field = Some x) (fields line) pt)
              (matching lines) pts') as E'.
    { eapply Forall2_impl; [exact E|]. intros line pt H. cbn beta in H.
      rewrite parse_line_fields in H. apply map_result_Ok in H.
      eapply Forall2_impl; [exact H|]. intros field x Hx. cbn beta in Hx.
      unfold parse_field in Hx. destruct (py_float lib field); congruence. }
    split.
    + intros [= <-]. exact E'.
    + intros H. f_equal.
      clear E. revert pts H. induction E' as [|line pt ls ps Hl _ IH]; intros pts H.
      * inversion H. reflexivity.
      * inversion H as [|? pt' ? ps' Hl' Hrest]; subst. f_equal; [|apply IH; exact Hrest].
        clear -Hl Hl'. revert pt' Hl'.
        induction Hl as [|f x fs' xs Hf _ IHf]; intros pt' Hl'.
        -- inversion Hl'. reflexivity.
        -- inversion Hl' as [|? x' ? xs' Hf' Hr]; subst. f_equal; [congruence | apply IHf; exact Hr].
  - split; [discriminate|]. intros H. exfalso.
    apply map_result_Raise in E as (line & Hline & E).
    rewrite parse_line_fields in E.
    apply map_result_Raise in E as (field & Hfield & E).
    unfold parse_field in E. destruct (py_float lib field) eqn:Ef; [discriminate|].
    apply list_elem_of_lookup in Hline as [i Hi].
    destruct (Forall2_lookup_l _ _ _ _ _ H Hi) as (pt & _ & Hpt).
    apply list_elem_of_lookup in Hfield as [j Hj].
    destruct (Forall2_lookup_l _ _ _ _ _ Hpt Hj) as (x & _ & Hx). congruence.
Qed.

(** [_set_coordinate_range] on four corners: four reads, then the two
    ranges; the world is not touched. *)
Lemma set_coordinate_range_run (self : CoordinateDrawer) (w : world)
  (lb lt rt rb : list float) :
  corner_points self = Some [lb; lt; rt; rb] ->
  _set_coordinate_range self w
  = (lon0 ← getitem lt 0; lon1 ← getitem rb 0;
     lat0 ← getitem lb 1; lat1 ← getitem lt 1;
     Ok (set_lat_range (Some (lat0, lat1)) (set_lon_range (Some (lon0, lon1)) self)),
     w).
Proof.
  intros Hc. unfold _set_coordinate_range. rewrite Hc. cbn [attr].
  rewrite (bind_ok _ _ w w [lb; lt; rt; rb]) by reflexivity.
  rewrite (bind_ok _ _ w w (lb, lt, rt, rb)) by reflexivity.
  unfold lift, mbind at 1 2 3 4, M_bind, mret, M_ret.
  destruct (getitem lt 0); [|reflexivity].
  destruct (getitem rb 0); [|reflexivity].
  destruct (getitem lb 1); [|reflexivity].
  destruct (getitem lt 1); reflexivity.
Qed.

(** The constructor, step by step. *)
Lemma init_run (folder : str) (size : Z * Z) (w : world) :
  __init__ lib fs folder size w
  = match os_listdir fs (os_path_normpath lib folder) with
    | None => (Raise OSError, w)
    | Some files =>
        match chosen (lit ".png") (os_path_normpath lib folder) files,
              chosen (lit ".txt") (os_path_normpath lib folder) files with
        | Some ipath, Some tpath =>
            match cv2_imread fs ipath with
            | None => (Raise (ValueError unreadable_image), w)
            | Some img =>
                let l := fresh (dom (heap w)) in
                let w1 := {| heap := <[l := img]> (heap w); viewer := viewer w |} in
                let self1 :=
                  {| folder_path := os_path_normpath lib folder; display_size := size;
                     image_path := Some ipath; txt_path := Some tpath;
                     corner_points := None; original_image := Some l;
                     lon_range := None; lat_range := None |} in
                match open_lines fs tpath with
                | None => (Raise OSError, w1)
                | Some lines =>
                    match read_points lib lines [] with
                    | Raise e => (Raise e, w1)
                    | Ok points =>
                        if bool_decide (length points ≠ 4%nat)
                        then (Raise (ValueError need_four_corners), w1)
                        else _set_coordinate_range
                               (set_corner_points (Some points) self1) w1
                    end
                end
            end
        | _, _ => (Raise FileNotFoundError, w)
        end
    end.
Proof.
  unfold __init__, _initialize. cbn [folder_path].
  destruct (os_listdir fs (os_path_normpath lib folder)) as [files|]; [|reflexivity].
  cbn [attr]. rewrite (bind_ok _ _ w w files) by reflexivity.
  rewrite scan_fold. cbn [folder_path image_path txt_path set_txt_path set_image_path].
  destruct (chosen (lit ".png") _ files) as [ipath|] eqn:Ep; [|reflexivity].
  destruct (chosen (lit ".txt") _ files) as [tpath|] eqn:Et.
  2:{ cbn [truthy]. rewrite andb_false_r. reflexivity. }
  rewrite (chosen_truthy _ _ 103%N (lit ".pn") _ _ eq_refl Ep).
  rewrite (chosen_truthy _ _ 116%N (lit ".tx") _ _ eq_refl Et).
  cbn [andb negb attr]. rewrite (bind_ok _ _ w w ipath) by reflexivity.
  destruct (cv2_imread fs ipath) as [img|]; [|reflexivity].
  cbv zeta.
  rewrite (bind_ok _ _ _ _ _ (eq_refl : alloc img w = (Ok _, _))).
  unfold _read_corner_points.
  cbn [txt_path set_original_image set_txt_path set_image_path attr].
  rewrite bind_run.
  rewrite (bind_ok (mret tpath) _ _ _ tpath) by reflexivity.
  destruct (open_lines fs tpath) as [lines|]; [|reflexivity].
  cbn [attr]. rewrite (bind_ok (mret lines) _ _ _ lines) by reflexivity.
  rewrite bind_run. unfold lift at 1.
  destruct (read_points lib lines []) as [points|e]; [|reflexivity].
  destruct (bool_decide (length points ≠ 4%nat)); reflexivity.
Qed.

End Init.

Lemma getitem_Ok {A} (xs : list A) (i : nat) (x : A) :
  getitem xs i = Ok x <-> xs !! i = Some x.
Proof. unfold getitem. destruct (xs !! i); split; congruence. Qed.

Lemma getitem_raises {A} (xs : list A) (i : nat) (e : exn) :
  getitem xs i = Raise e -> e = IndexError.
Proof. unfold getitem. destruct (xs !! i); congruence. Qed.

Section Constructor.

Context (lib : Library) (fs : filesystem) (folder : str) (size : Z * Z) (w : world).

Let folder' := os_path_normpath lib folder.

(** When the files are there and the lines parse to four corners of which
    the first two have a latitude, the constructor returns. *)
Lemma init_ok (files : list str) (ipath tpath : str) (img : ndarray)
  (lines : list str) (lb lt rt rb : list float) (lon0 lon1 lat0 lat1 : float) :
  os_listdir fs folder' = Some files ->
  chosen (lit ".png") folder' files = Some ipath ->
  chosen (lit ".txt") folder' files = Some tpath ->
  cv2_imread fs ipath = Some img ->
  open_lines fs tpath = Some lines ->
  read_points lib lines [] = Ok [lb; lt; rt; rb] ->
  lt !! 0%nat = Some lon0 -> rb !! 0%nat = Some lon1 ->
  lb !! 1%nat = Some lat0 -> lt !! 1%nat = Some lat1 ->
  __init__ lib fs folder size w
  = (Ok (constructed folder' size ipath tpath [lb; lt; rt; rb]
           (fresh (dom (heap w))) (lon0, lon1) (lat0, lat1)),
     loaded w img).
Proof.
  intros Hls Hp Ht Him Hop Hrd H1 H2 H3 H4.
  rewrite init_run. fold folder'. rewrite Hls, Hp, Ht, Him, Hop, Hrd. cbv zeta.
  rewrite bool_decide_false by (cbn; lia).
  rewrite (set_coordinate_range_run _ _ lb lt rt rb) by reflexivity.
  apply getitem_Ok in H1, H2, H3, H4. rewrite H1, H2, H3, H4. reflexivity.
Qed.

(** What a constructor that returns has found and built. *)
Lemma init_inv (self : CoordinateDrawer) (w' : world) :
  __init__ lib fs folder size w = (Ok self, w') ->
  exists files ipath tpath img lines lb lt rt rb lon0 lon1 lat0 lat1,
    os_listdir fs folder' = Some files
    /\ chosen (lit ".png") folder' files = Some ipath
    /\ chosen (lit ".txt") folder' files = Some tpath
    /\ cv2_imread fs ipath = Some img
    /\ open_lines fs tpath = Some lines
    /\ read_points lib lines [] = Ok [lb; lt; rt; rb]
    /\ lt !! 0%nat = Some lon0 /\ rb !! 0%nat = Some lon1
    /\ lb !! 1%nat = Some lat0 /\ lt !! 1%nat = Some lat1
    /\ self = constructed folder' size ipath tpath [lb; lt; rt; rb]
                (fresh (dom (heap w))) (lon0, lon1) (lat0, lat1)
    /\ w' = loaded w img.
Proof.
  rewrite init_run. fold folder'.
  destruct (os_listdir fs folder') as [files|] eqn:Hls; [|discriminate].
  destruct (chosen (lit ".png") folder' files) as [ipath|] eqn:Hp; [|discriminate].
  destruct (chosen (lit ".txt") folder' files) as [tpath|] eqn:Ht; [|discriminate].
  destruct (cv2_imread fs ipath) as [img|] eqn:Him; [|discriminate]. cbv zeta.
  destruct (open_lines fs tpath) as [lines|] eqn:Hop; [|discriminate].
  destruct (read_points lib lines []) as [points|e] eqn:Hrd; [|discriminate].
  destruct (bool_decide (length points ≠ 4%nat)) eqn:Hlen; [discriminate|].
  apply bool_decide_eq_false in Hlen.
  destruct points as [|lb [|lt [|rt [|rb [|]]]]]; cbn in Hlen; try lia.
  rewrite (set_coordinate_range_run _ _ lb lt rt rb) by reflexivity.
  destruct (getitem lt 0) as [lon0|] eqn:E1; [|discriminate].
  destruct (getitem rb 0) as [lon1|] eqn:E2; [|discriminate].
  destruct (getitem lb 1) as [lat0|] eqn:E3; [|discriminate].
  destruct (getitem lt 1) as [lat1|] eqn:E4; [|discriminate].
  apply getitem_Ok in E1, E2, E3, E4.
  intros [= <- <-].
  exists files, ipath, tpath, img, lines, lb, lt, rt, rb, lon0, lon1, lat0, lat1.
  repeat split; assumption || reflexivity.
Qed.

(** What the constructor raises once the two files are found. *)
Lemma init_raises_after_scan (files : list str) (ipath tpath : str) (e : exn) :
  os_listdir fs folder' = Some files ->
  chosen (lit ".png") folder' files = Some ipath ->
  chosen (lit ".txt") folder' files = Some tpath ->
  (__init__ lib fs folder size w).1 = Raise e ->
  e = ValueError unreadable_image \/ e = OSError \/ e = ValueError not_a_float
  \/ e = ValueError need_four_corners \/ e = IndexError.
Proof.
  intros Hls Hp Ht. rewrite init_run. fold folder'. rewrite Hls, Hp, Ht.
  destruct (cv2_imread fs ipath) as [img|]; [|intros [= <-]; auto]. cbv zeta.
  destruct (open_lines fs tpath) as [lines|]; [|intros [= <-]; auto].
  destruct (read_points lib lines []) as [points|e'] eqn:Hrd.
  2:{ intros [= <-]. apply read_points_raises in Hrd as [-> _]. auto. }
  destruct (bool_decide (length points ≠ 4%nat)) eqn:Hlen; [intros [= <-]; auto 6|].
  apply bool_decide_eq_false in Hlen.
  destruct points as [|lb [|lt [|rt [|rb [|]]]]]; cbn in Hlen; try lia.
  rewrite (set_coordinate_range_run _ _ lb lt rt rb) by reflexivity. cbn [fst].
  destruct (getitem lt 0) eqn:E1; [|intros [= <-]; apply getitem_raises in E1; auto 6].
  destruct (getitem rb 0) eqn:E2; [|intros [= <-]; apply getitem_raises in E2; auto 6].
  destruct (getitem lb 1) eqn:E3; [|intros [= <-]; apply getitem_raises in E3; auto 6].
  destruct (getitem lt 1) eqn:E4; [|intros [= <-]; apply getitem_raises in E4; auto 6].
  discriminate.
Qed.

End Constructor.

(** C3 (amended): when the directory can be listed, initialization fails
    with MissingInputFile exactly when no name of the listing ends in .png
    or no name ends in .txt. With two names or more for an extension the
    scan keeps the last one listed, and no error is raised for that. *)
Theorem init_missing_input_file
  (lib : Library) (fs : filesystem) (folder : str) (size : Z * Z) (w : world)
  (files : list str) :
  os_listdir fs (os_path_normpath lib folder) = Some files ->
  ((exists e, (__init__ lib fs folder size w).1 = Raise e /\ MissingInputFile e)
   <-> count_ending (lit ".png") files = 0%nat \/ count_ending (lit ".txt") files = 0%nat)
  /\ forall self w', __init__ lib fs folder size w = (Ok self, w') ->
       image_path self = chosen (lit ".png") (os_path_normpath lib folder) files
       /\ txt_path self = chosen (lit ".txt") (os_path_normpath lib folder) files.
Proof.
  intros Hls. split; [split|].
  - intros (e & He & ->).
    destruct (chosen (lit ".png") (os_path_normpath lib folder) files) as [ipath|] eqn:Ep.
    2:{ left. apply chosen_None in Ep. exact Ep. }
    destruct (chosen (lit ".txt") (os_path_normpath lib folder) files) as [tpath|] eqn:Et.
    2:{ right. apply chosen_None in Et. exact Et. }
    destruct (init_raises_after_scan lib fs folder size w files ipath tpath _ Hls Ep Et He)
      as [H|[H|[H|[H|H]]]]; discriminate.
  - intros H. exists FileNotFoundError. split; [|reflexivity].
    rewrite init_run, Hls.
    destruct H as [H|H]; apply (chosen_None _ (os_path_normpath lib folder)) in H; rewrite H.
    + reflexivity.
    + destruct (chosen (lit ".png") _ files); reflexivity.
  - intros self w' H.
    apply init_inv in H
      as (files' & ipath & tpath & img & lines & lb & lt & rt & rb & a & b & c & d
          & Hls' & Hp & Ht & _ & _ & _ & _ & _ & _ & _ & -> & _).
    rewrite Hls in Hls'. injection Hls' as <-. rewrite Hp, Ht. split; reflexivity.
Qed.

Lemma init_missing_input_file_witness :
  exists e,
    (__init__ example_lib no_png_fs (lit "map") (1920, 1080) empty_world).1 = Raise e
    /\ MissingInputFile e.
Proof.
  apply (proj1 (init_missing_input_file example_lib no_png_fs (lit "map") (1920, 1080)
                  empty_world [lit "map.txt"; lit "notes.md"] eq_refl)).
  left. reflexivity.
Defined.

(** C3, as the claim states it, fails: a directory with two .png files and
    one .txt file is accepted, and the second .png file is the image. *)
Lemma init_two_png_files :
  count_ending (lit ".png") [lit "a.png"; lit "b.png"; lit "map.txt"] = 2%nat
  /\ exists self w',
       __init__ example_lib two_png_fs (lit "map") (1920, 1080) empty_world = (Ok self, w')
       /\ image_path self = Some (lit "map/b.png").
Proof.
  split; [reflexivity|]. eexists. eexists. split; [vm_compute; reflexivity|]. reflexivity.
Qed.

(** Every field that parses gives a value, so fields that all parse give a
    list of points. *)
Lemma all_fields_parse (lib : Library) (ls : list str) :
  Forall (fun line => Forall (fun field => is_Some (py_float lib field)) (fields line)) ls ->
  exists pts, Forall2 (fun line pt =>
                 Forall2 (fun field x => py_float lib field = Some x) (fields line) pt)
                ls pts.
Proof.
  induction 1 as [|line ls Hline _ [pts IH]]; [exists []; constructor|].
  assert (exists pt, Forall2 (fun field x => py_float lib field = Some x) (fields line) pt)
    as [pt Hpt].
  { induction Hline as [|field fs [x Hx] _ [pt IHf]]; [exists []; constructor|].
    exists (x :: pt). constructor; assumption. }
  exists (pt :: pts). constructor; assumption.
Qed.

(** C4: once the two files are found and read, construction fails with
    InvalidCalibration if and only if the lines that hold the marker are
    not exactly 4 or a comma-separated field of such a line is not read by
    [float]; with exactly 4 such lines, each of two fields or more that all
    parse, construction succeeds; and a construction that fails returns no
    object. *)
Theorem init_invalid_calibration
  (lib : Library) (fs : filesystem) (folder : str) (size : Z * Z) (w : world)
  (files : list str) (ipath tpath : str) (img : ndarray) (lines : list str) :
  os_listdir fs (os_path_normpath lib folder) = Some files ->
  chosen (lit ".png") (os_path_normpath lib folder) files = Some ipath ->
  chosen (lit ".txt") (os_path_normpath lib folder) files = Some tpath ->
  cv2_imread fs ipath = Some img ->
  open_lines fs tpath = Some lines ->
  let out := __init__ lib fs folder size w in
  ((exists e, out.1 = Raise e /\ InvalidCalibration e)
   <-> length (matching lines) <> 4%nat
       \/ exists line field, line ∈ matching lines /\ field ∈ fields line
                             /\ py_float lib field = None)
  /\ (length (matching lines) = 4%nat ->
      Forall (fun line =>
                (2 <= length (fields line))%nat
                /\ Forall (fun field => is_Some (py_float lib field)) (fields line))
        (matching lines) ->
      exists self, out.1 = Ok self)
  /\ (forall e, out.1 = Raise e -> forall self, out.1 <> Ok self).
Proof.
  intros Hls Hp Ht Him Hop out.
  assert (out = match read_points lib lines [] with
                | Raise e => (Raise e, loaded w img)
                | Ok points =>
                    if bool_decide (length points ≠ 4%nat)
                    then (Raise (ValueError need_four_corners), loaded w img)
                    else _set_coordinate_range
                           (set_corner_points (Some points)
                              {| folder_path := os_path_normpath lib folder;
                                 display_size := size;
                                 image_path := Some ipath; txt_path := Some tpath;
                                 corner_points := None;
                                 original_image := Some (fresh (dom (heap w)));
                                 lon_range := None; lat_range := None |})
                           (loaded w img)
                end) as Hout.
  { subst out. rewrite init_run, Hls, Hp, Ht, Him, Hop. reflexivity. }
  split; [split|split].
  - (* an InvalidCalibration error comes from a bad count or a bad field *)
    intros (e & He & Hinv). rewrite Hout in He.
    destruct (read_points lib lines []) as [points|e'] eqn:Hrd.
    + apply read_points_ok in Hrd. pose proof (Forall2_length _ _ _ Hrd) as Hlen.
      destruct (bool_decide (length points ≠ 4%nat)) eqn:Hb.
      * apply bool_decide_eq_true in Hb. left. lia.
      * exfalso. apply bool_decide_eq_false in Hb.
        destruct points as [|lb [|lt [|rt [|rb [|]]]]]; cbn in Hb; try lia.
        rewrite (set_coordinate_range_run _ _ lb lt rt rb) in He by reflexivity.
        cbn [fst] in He.
        destruct (getitem lt 0) eqn:E1;
          [|apply getitem_raises in E1; injection He as <-; destruct Hinv; congruence].
        destruct (getitem rb 0) eqn:E2;
          [|apply getitem_raises in E2; injection He as <-; destruct Hinv; congruence].
        destruct (getitem lb 1) eqn:E3;
          [|apply getitem_raises in E3; injection He as <-; destruct Hinv; congruence].
        destruct (getitem lt 1) eqn:E4;
          [|apply getitem_raises in E4; injection He as <-; destruct Hinv; congruence].
        discriminate.
    + right. apply read_points_raises in Hrd as [_ H]. exact H.
  - (* a bad count or a bad field gives an InvalidCalibration error *)
    intros H. rewrite Hout.
    destruct (read_points lib lines []) as [points|e'] eqn:Hrd.
    + apply read_points_ok in Hrd. pose proof (Forall2_length _ _ _ Hrd) as Hlen.
      destruct H as [H|(line & field & Hline & Hfield & Hnone)].
      * rewrite bool_decide_true by lia.
        exists (ValueError need_four_corners). split; [reflexivity | right; reflexivity].
      * exfalso.
        apply list_elem_of_lookup in Hline as [i Hi].
        destruct (Forall2_lookup_l _ _ _ _ _ Hrd Hi) as (pt & _ & Hpt).
        apply list_elem_of_lookup in Hfield as [j Hj].
        destruct (Forall2_lookup_l _ _ _ _ _ Hpt Hj) as (x & _ & Hx). congruence.
    + exists e'. split; [reflexivity|].
      apply read_points_raises in Hrd as [-> _]. left. reflexivity.
  - (* four well-formed lines *)
    intros Hlen Hwf. rewrite Hout.
    destruct (all_fields_parse lib (matching lines)) as [pts Hpts].
    { eapply Forall_impl; [exact Hwf|]. intros line [_ H]. exact H. }
    pose proof (Forall2_length _ _ _ Hpts) as Hlen'.
    rewrite (proj2 (read_points_ok lib lines pts) Hpts).
    rewrite bool_decide_false by lia.
    destruct pts as [|lb [|lt [|rt [|rb [|]]]]]; cbn in Hlen'; try lia.
    destruct (matching lines) as [|l0 [|l1 [|l2 [|l3 [|]]]]]; cbn in Hlen; try lia.
    apply Forall2_cons in Hpts as [H0 Hpts]. apply Forall2_cons in Hpts as [H1 Hpts].
    apply Forall2_cons in Hpts as [H2 Hpts]. apply Forall2_cons in Hpts as [H3 _].
    apply Forall_cons in Hwf as [[W0 _] Hwf]. apply Forall_cons in Hwf as [[W1 _] Hwf].
    apply Forall_cons in Hwf as [[W2 _] Hwf]. apply Forall_cons in Hwf as [[W3 _] _].
    apply Forall2_length in H0, H1, H2, H3.
    rewrite (set_coordinate_range_run _ _ lb lt rt rb) by reflexivity. cbn [fst].
    destruct lb as [|lb0 [|lb1 lb]]; cbn in H0; try lia.
    destruct lt as [|lt0 [|lt1 lt]]; cbn in H1; try lia.
    destruct rb as [|rb0 rb]; cbn in H3; try lia.
    eexists. reflexivity.
  - intros e He self Hs. rewrite He in Hs. discriminate.
Qed.

Lemma init_invalid_calibration_witness :
  exists self,
    (__init__ example_lib example_fs (lit "map") (1920, 1080) empty_world).1 = Ok self.
Proof.
  apply (proj1 (proj2 (init_invalid_calibration example_lib example_fs (lit "map")
                         (1920, 1080) empty_world [lit "map.png"; lit "map.txt"]
                         (lit "map/map.png") (lit "map/map.txt") (blank 3000 4000)
                         example_lines eq_refl eq_refl eq_refl eq_refl eq_refl))).
  - reflexivity.
  - apply (bool_decide_unpack _). vm_compute. exact I.
Defined.



(** C9: on an object the constructor returned, with its corner points in
    the order left-bottom, left-top, right-top, right-bottom, the accessor
    returns a mapping with the two keys "longitude" and "latitude" and no
    other, the first bound to the pair (leftTop.lon, rightBottom.lon) and
    the second to the pair (leftBottom.lat, leftTop.lat). The two pairs are
    the attributes the constructor set; the accessor reads them and takes
    no world, and no other method returns a changed object, so every call
    returns the same. *)
Theorem coordinate_range_accessor
  (lib : Library) (fs : filesystem) (folder : str) (size : Z * Z)
  (w w' : world) (self : CoordinateDrawer) :
  __init__ lib fs folder size w = (Ok self, w') ->
  exists (lb lt rt rb : list float) (lon0 lon1 lat0 lat1 : float),
    corner_points self = Some [lb; lt; rt; rb]
    /\ lt !! 0%nat = Some lon0 /\ rb !! 0%nat = Some lon1
    /\ lb !! 1%nat = Some lat0 /\ lt !! 1%nat = Some lat1
    /\ lon_range self = Some (lon0, lon1)
    /\ lat_range self = Some (lat0, lat1)
    /\ get_coordinate_range self
       = {[ "longitude"%string := Some (lon0, lon1);
            "latitude"%string := Some (lat0, lat1) ]}
    /\ dom (get_coordinate_range self) = {[ "longitude"%string; "latitude"%string ]}.
Proof.
  intros H.
  apply init_inv in H
    as (files & ipath & tpath & img & lines & lb & lt & rt & rb & lon0 & lon1 & lat0 & lat1
        & _ & _ & _ & _ & _ & _ & H1 & H2 & H3 & H4 & -> & _).
  exists lb, lt, rt, rb, lon0, lon1, lat0, lat1.
  repeat (split; [first [reflexivity | assumption]|]).
  unfold get_coordinate_range. cbn [lon_range lat_range constructed].
  rewrite dom_insert_L, dom_singleton_L. reflexivity.
Qed.

Lemma coordinate_range_accessor_witness :
  exists (lb lt rt rb : list float) (lon0 lon1 lat0 lat1 : float),
    corner_points example_self = Some [lb; lt; rt; rb]
    /\ lt !! 0%nat = Some lon0 /\ rb !! 0%nat = Some lon1
    /\ lb !! 1%nat = Some lat0 /\ lt !! 1%nat = Some lat1
    /\ lon_range example_self = Some (lon0, lon1)
    /\ lat_range example_self = Some (lat0, lat1)
    /\ get_coordinate_range example_self
       = {[ "longitude"%string := Some (lon0, lon1);
            "latitude"%string := Some (lat0, lat1) ]}
    /\ dom (get_coordinate_range example_self)
       = {[ "longitude"%string; "latitude"%string ]}.
Proof.
  exact (coordinate_range_accessor example_lib example_fs (lit "map") (1920, 1080)
           empty_world example_world example_self init_example).
Defined.

(** ** Fields after the second *)

Lemma getitem_take2 {A} (a b : list A) (i : nat) :
  take 2 a = take 2 b -> (i < 2)%nat -> getitem a i = getitem b i.
Proof.
  intros E Hi. unfold getitem.
  rewrite <- (lookup_take_lt a 2 i Hi), <- (lookup_take_lt b 2 i Hi), E. reflexivity.
Qed.

(** Corner points that agree on their first two fields: four of them on
    each side, or on neither. *)
Lemma unpack4_take2 (pts pts' : list (list float)) :
  take 2 <$> pts' = take 2 <$> pts ->
  match unpack4 pts, unpack4 pts' with
  | Ok (lb, lt, rt, rb), Ok (lb', lt', rt', rb') =>
      take 2 lb' = take 2 lb /\ take 2 lt' = take 2 lt
      /\ take 2 rt' = take 2 rt /\ take 2 rb' = take 2 rb
  | Raise e, Raise e' => e = e'
  | _, _ => False
  end.
Proof.
  intros E.
  destruct pts as [|lb [|lt [|rt [|rb [|x pts]]]]],
           pts' as [|lb' [|lt' [|rt' [|rb' [|x' pts']]]]];
    try discriminate; try reflexivity.
  injection E as E1 E2 E3 E4. cbn. auto.
Qed.

Lemma convert_to_pixel_take2 (self self' : CoordinateDrawer)
  (pts pts' : list (list float)) (lon lat : float) (w : world) :
  original_image self' = original_image self ->
  corner_points self = Some pts ->
  corner_points self' = Some pts' ->
  take 2 <$> pts' = take 2 <$> pts ->
  _convert_to_pixel self' lon lat w = _convert_to_pixel self lon lat w.
Proof.
  intros Ho Hc Hc' E. unfold _convert_to_pixel. rewrite Ho, Hc, Hc'.
  destruct (original_image self) as [l|]; [|reflexivity]. cbn [attr].
  rewrite !(bind_ok (mret l) _ w w l) by reflexivity.
  rewrite !(bind_run (load l)). destruct (load l w) as [[img|e] w1]; [|reflexivity].
  rewrite !(bind_ok (mret _) _ w1 w1 _) by reflexivity.
  pose proof (unpack4_take2 pts pts' E) as H.
  rewrite !(bind_run (lift _)). unfold lift at 1 3.
  destruct (unpack4 pts) as [[[[lb lt] rt] rb]|e], (unpack4 pts') as [[[[lb' lt'] rt'] rb']|e'];
    try contradiction; [|congruence].
  destruct H as (_ & Hlt & _ & Hrb). unfold lift.
  rewrite (getitem_take2 lt' lt 0 Hlt), (getitem_take2 rb' rb 0 Hrb) by lia.
  rewrite (getitem_take2 lt' lt 1 Hlt), (getitem_take2 rb' rb 1 Hrb) by lia.
  reflexivity.
Qed.

Lemma set_coordinate_range_take2 (self' s2 : CoordinateDrawer)
  (lb lt rt rb : list float) (pts' : list (list float)) (lon0 lon1 lat0 lat1 : float)
  (w0 w2 : world) :
  lt !! 0%nat = Some lon0 -> rb !! 0%nat = Some lon1 ->
  lb !! 1%nat = Some lat0 -> lt !! 1%nat = Some lat1 ->
  corner_points self' = Some pts' ->
  take 2 <$> pts' = take 2 <$> [lb; lt; rt; rb] ->
  _set_coordinate_range self' w0 = (Ok s2, w2) ->
  lon_range s2 = Some (lon0, lon1) /\ lat_range s2 = Some (lat0, lat1).
Proof.
  intros H1 H2 H3 H4 Hc' E.
  destruct pts' as [|lb' [|lt' [|rt' [|rb' [|x' pts']]]]]; try discriminate.
  injection E as E1 E2 E3 E4.
  rewrite (set_coordinate_range_run self' w0 lb' lt' rt' rb' Hc').
  rewrite (getitem_take2 lt' lt 0 E2), (getitem_take2 rb' rb 0 E4) by lia.
  rewrite (getitem_take2 lb' lb 1 E1), (getitem_take2 lt' lt 1 E2) by lia.
  apply getitem_Ok in H1, H2, H3, H4. rewrite H1, H2, H3, H4.
  intros [= <- <-]. split; reflexivity.
Qed.

(** C10: when each of the 4 lines that hold the marker has more than two
    comma-separated fields and [float] reads them all, construction
    succeeds; every field is parsed and stored, in order, in the corner
    points; and an object whose corner points agree with these on the first
    two fields of each point has the same coordinate-to-pixel transform and
    derives the same coordinate range. *)
Theorem extra_fields_are_ignored
  (lib : Library) (fs : filesystem) (folder : str) (size : Z * Z) (w : world)
  (files : list str) (ipath tpath : str) (img : ndarray) (lines : list str) :
  os_listdir fs (os_path_normpath lib folder) = Some files ->
  chosen (lit ".png") (os_path_normpath lib folder) files = Some ipath ->
  chosen (lit ".txt") (os_path_normpath lib folder) files = Some tpath ->
  cv2_imread fs ipath = Some img ->
  open_lines fs tpath = Some lines ->
  length (matching lines) = 4%nat ->
  Forall (fun line =>
            (2 < length (fields line))%nat
            /\ Forall (fun field => is_Some (py_float lib field)) (fields line))
    (matching lines) ->
  exists self pts,
    __init__ lib fs folder size w = (Ok self, loaded w img)
    /\ corner_points self = Some pts
    /\ Forall2 (fun line pt =>
                  Forall2 (fun field x => py_float lib field = Some x) (fields line) pt)
         (matching lines) pts
    /\ forall self' pts',
         original_image self' = original_image self ->
         corner_points self' = Some pts' ->
         take 2 <$> pts' = take 2 <$> pts ->
         (forall lon lat w0,
            _convert_to_pixel self' lon lat w0 = _convert_to_pixel self lon lat w0)
         /\ (forall w0 s2 w2,
               _set_coordinate_range self' w0 = (Ok s2, w2) ->
               get_coordinate_range s2 = get_coordinate_range self).
Proof.
  intros Hls Hp Ht Him Hop Hlen Hwf.
  destruct (all_fields_parse lib (matching lines)) as [pts Hpts].
  { eapply Forall_impl; [exact Hwf|]. intros line [_ H]. exact H. }
  pose proof (Forall2_length _ _ _ Hpts) as Hlen'.
  pose proof (proj2 (read_points_ok lib lines pts) Hpts) as Hrd.
  assert (Forall (fun pt : list float => (2 < length pt)%nat) pts) as Hlong.
  { clear -Hpts Hwf. induction Hpts as [|line pt ls ps Hl _ IH]; [constructor|].
    apply Forall_cons in Hwf as [[W _] Hwf].
    constructor; [|apply IH; exact Hwf].
    apply Forall2_length in Hl. lia. }
  destruct pts as [|lb [|lt [|rt [|rb [|]]]]]; cbn in Hlen'; try lia.
  apply Forall_cons in Hlong as [L0 Hlong]. apply Forall_cons in Hlong as [L1 Hlong].
  apply Forall_cons in Hlong as [L2 Hlong]. apply Forall_cons in Hlong as [L3 _].
  destruct lb as [|lb0 [|lb1 lb]]; cbn in L0; try lia.
  destruct lt as [|lt0 [|lt1 lt]]; cbn in L1; try lia.
  destruct rb as [|rb0 rb]; cbn in L3; try lia.
  eexists. eexists.
  split; [apply (init_ok lib fs folder size w files ipath tpath img lines _ _ _ _
                   lt0 rb0 lb1 lt1 Hls Hp Ht Him Hop Hrd); reflexivity|].
  split; [reflexivity|]. split; [exact Hpts|].
  intros self' pts' Ho Hc' E. split.
  - intros lon lat w0.
    apply (convert_to_pixel_take2 _ self' _ pts' lon lat w0 Ho eq_refl Hc' E).
  - intros w0 s2 w2 Hs.
    destruct (set_coordinate_range_take2 self' s2 (lb0 :: lb1 :: lb) (lt0 :: lt1 :: lt) rt
                (rb0 :: rb) pts' lt0 rb0 lb1 lt1 w0 w2
                eq_refl eq_refl eq_refl eq_refl Hc' E Hs) as [R1 R2].
    unfold get_coordinate_range. rewrite R1, R2. reflexivity.
Qed.

Lemma extra_fields_are_ignored_witness :
  exists self pts,
    __init__ example_lib extra_fs (lit "map") (1920, 1080) empty_world
    = (Ok self, loaded empty_world (blank 3000 4000))
    /\ corner_points self = Some pts
    /\ get_coordinate_range self = get_coordinate_range example_self
    /\ forall lon lat w0,
         _convert_to_pixel example_self lon lat w0 = _convert_to_pixel self lon lat w0.
Proof.
  destruct (extra_fields_are_ignored example_lib extra_fs (lit "map") (1920, 1080)
              empty_world [lit "map.png"; lit "map.txt"]
              (lit "map/map.png") (lit "map/map.txt") (blank 3000 4000)
              extra_lines eq_refl eq_refl eq_refl eq_refl eq_refl eq_refl)
    as (self & pts & Hinit & Hc & _ & Hsame).
  { apply (bool_decide_unpack _). vm_compute. exact I. }
  exists self, pts. split; [exact Hinit|]. split; [exact Hc|].
  assert (self = constructed (lit "map") (1920, 1080) (lit "map/map.png") (lit "map/map.txt")
                   [[decimal 11760 2; decimal 3599 2; decimal 525 1];
                    [decimal 11760 2; decimal 3601 2; decimal 53 0];
                    [decimal 11765 2; decimal 3601 2; decimal 5125 2; decimal 7 0];
                    [decimal 11765 2; decimal 3599 2; decimal 50 0]]
                   0%nat (decimal 11760 2, decimal 11765 2)
                   (decimal 3599 2, decimal 3601 2)) as Hself.
  { assert (__init__ example_lib extra_fs (lit "map") (1920, 1080) empty_world
            = (Ok (constructed (lit "map") (1920, 1080) (lit "map/map.png") (lit "map/map.txt")
                     [[decimal 11760 2; decimal 3599 2; decimal 525 1];
                      [decimal 11760 2; decimal 3601 2; decimal 53 0];
                      [decimal 11765 2; decimal 3601 2; decimal 5125 2; decimal 7 0];
                      [decimal 11765 2; decimal 3599 2; decimal 50 0]]
                     0%nat (decimal 11760 2, decimal 11765 2)
                     (decimal 3599 2, decimal 3601 2)),
               loaded empty_world (blank 3000 4000))) as H by (vm_compute; reflexivity).
    rewrite H in Hinit. injection Hinit as <-. reflexivity. }
  subst self. injection Hc as <-.
  destruct (Hsame example_self example_corners eq_refl eq_refl eq_refl) as [H1 _].
  split; [reflexivity | exact H1].
Defined.

(** C8 (amended): corners that share a longitude or a latitude are not
    rejected at construction: a file whose four lines parse is accepted
    whatever the values. On such an object every application of the
    transform raises and returns no position: ZeroDivisionError when the
    longitudes are equal, and also when only the latitudes are equal and the
    x axis gives a position; in the remaining case the error of the x axis,
    which is OverflowError or the ValueError of a NaN. The corners are
    finite floats. *)
Theorem degenerate_corners_raise
  (lib : Library) (fs : filesystem) (folder : str) (size : Z * Z) (w : world)
  (files : list str) (ipath tpath : str) (img : ndarray) (lines : list str)
  (lb_lon lb_lat lt_lon lt_lat rb_lon rb_lat : float)
  (lb_rest lt_rest rt rb_rest : list float) :
  os_listdir fs (os_path_normpath lib folder) = Some files ->
  chosen (lit ".png") (os_path_normpath lib folder) files = Some ipath ->
  chosen (lit ".txt") (os_path_normpath lib folder) files = Some tpath ->
  cv2_imread fs ipath = Some img ->
  open_lines fs tpath = Some lines ->
  read_points lib lines []
  = Ok [lb_lon :: lb_lat :: lb_rest; lt_lon :: lt_lat :: lt_rest; rt;
        rb_lon :: rb_lat :: rb_rest] ->
  is_finite lt_lon = true -> is_finite rb_lon = true ->
  is_finite lt_lat = true -> is_finite rb_lat = true ->
  feqb lt_lon rb_lon = true \/ feqb lt_lat rb_lat = true ->
  exists self,
    __init__ lib fs folder size w = (Ok self, loaded w img)
    /\ forall lon lat,
       exists e,
         _convert_to_pixel self lon lat (loaded w img) = (Raise e, loaded w img)
         /\ (e = ZeroDivisionError \/ e = OverflowError \/ e = ValueError nan_to_integer)
         /\ (feqb lt_lon rb_lon = true -> e = ZeroDivisionError)
         /\ (forall x, to_pixel_axis lon lt_lon rb_lon (shape1 img) = Ok x ->
             e = ZeroDivisionError).
Proof.
  intros Hls Hp Ht Him Hop Hrd Fx0 Fx1 Fy0 Fy1 Hdeg.
  set (self := constructed (os_path_normpath lib folder) size ipath tpath
                 [lb_lon :: lb_lat :: lb_rest; lt_lon :: lt_lat :: lt_rest; rt;
                  rb_lon :: rb_lat :: rb_rest]
                 (fresh (dom (heap w))) (lt_lon, rb_lon) (lb_lat, lt_lat)).
  exists self. split.
  { apply (init_ok lib fs folder size w files ipath tpath img lines _ _ _ _
             lt_lon rb_lon lb_lat lt_lat Hls Hp Ht Him Hop Hrd); reflexivity. }
  intros lon lat.
  rewrite (_convert_to_pixel_axes self (loaded w img) (fresh (dom (heap w))) img
             (lb_lon :: lb_lat :: lb_rest) rt lt_rest rb_rest lt_lon lt_lat rb_lon rb_lat
             lon lat eq_refl (lookup_insert_eq _ _ _) eq_refl).
  destruct (to_pixel_axis lon lt_lon rb_lon (shape1 img)) as [x|e] eqn:Ex;
    cbn [mbind result_bind].
  - assert (feqb lt_lat rb_lat = true) as Hy.
    { destruct Hdeg as [Hx|Hy]; [|exact Hy].
      rewrite (to_pixel_axis_degenerate lon lt_lon rb_lon _ Fx0 Fx1 Hx) in Ex. discriminate. }
    rewrite (to_pixel_axis_degenerate lat lt_lat rb_lat _ Fy0 Fy1 Hy).
    exists ZeroDivisionError. cbn [mbind result_bind]. auto.
  - exists e. split; [reflexivity|]. split; [apply (to_pixel_axis_raises _ _ _ _ _ Ex)|].
    split; [|discriminate].
    intros Hx. rewrite (to_pixel_axis_degenerate lon lt_lon rb_lon _ Fx0 Fx1 Hx) in Ex.
    congruence.
Qed.

Lemma degenerate_corners_raise_witness :
  exists self,
    __init__ example_lib degenerate_fs (lit "map") (1920, 1080) empty_world
    = (Ok self, loaded empty_world (blank 3000 4000))
    /\ forall lon lat,
       exists e,
         _convert_to_pixel self lon lat (loaded empty_world (blank 3000 4000))
         = (Raise e, loaded empty_world (blank 3000 4000))
         /\ (e = ZeroDivisionError \/ e = OverflowError \/ e = ValueError nan_to_integer)
         /\ (feqb (decimal 11760 2) (decimal 11760 2) = true -> e = ZeroDivisionError)
         /\ (forall x, to_pixel_axis lon (decimal 11760 2) (decimal 11760 2)
                         (shape1 (blank 3000 4000)) = Ok x ->
             e = ZeroDivisionError).
Proof.
  apply (degenerate_corners_raise example_lib degenerate_fs (lit "map") (1920, 1080)
           empty_world [lit "map.png"; lit "map.txt"] (lit "map/map.png")
           (lit "map/map.txt") (blank 3000 4000) degenerate_lines
           (decimal 11760 2) (decimal 3599 2) (decimal 11760 2) (decimal 3601 2)
           (decimal 11760 2) (decimal 3599 2) [] [] [decimal 11760 2; decimal 3601 2] []);
    first [ reflexivity | left; reflexivity ].
Defined.

(** C8, as the claim states it, fails: on corners that share a longitude the
    division itself raises; it gives no float, infinite or NaN, that could
    become a pixel position. *)
Lemma degenerate_division_raises :
  exists self w1,
    __init__ example_lib degenerate_fs (lit "map") (1920, 1080) empty_world = (Ok self, w1)
    /\ _convert_to_pixel self (decimal 117625 3) (decimal 3600 2) w1
       = (Raise ZeroDivisionError, w1)
    /\ py_truediv (py_sub (decimal 117625 3) (decimal 11760 2))
         (py_sub (decimal 11760 2) (decimal 11760 2))
       = Raise ZeroDivisionError.
Proof.
  eexists. eexists. split; [vm_compute; reflexivity|].
  split; vm_compute; reflexivity.
Qed.

